(** * Hackathon event dashboard: the dataset generator, the feedback
      scorers and the sepia transform of [app.py]

    The development follows [src/app.py]:
    - [generate_dataset] and its page [generate_dataset_page];
    - the keyword sentiment gauge of [domain_feedback_analysis];
    - the common-word table of [feedback_analysis];
    - the manual sepia filter of [image_processing].

    Python's [random] module is global mutable state: it is threaded
    explicitly through a state-and-exception monad.  The generator behind
    it is a library, taken here as an interface ([PRNG]) with the
    documented ranges of its two primitives; CPython's own generator, the
    Mersenne Twister, is one instance.  Values of [random.random()] and
    everything computed from them (time offsets, [Time_Spent]) are exact
    rationals; a [datetime] is a number of microseconds, the resolution
    Python stores.  The sepia filter and the percentages of the gauge
    are floating point and are modelled with binary64 numbers.  The
    search of pandas' [str.contains] is a library too, taken as an
    interface ([StrContains]). *)

From Stdlib Require Import ZArith QArith Qround String Ascii List Bool Lia Lqa.
From Stdlib Require Import Floats Uint63 DecimalString DecimalN Sorted.
From stdpp Require Import base option list strings gmap sorting.

Close Scope Q_scope.
Open Scope string_scope.
Open Scope Z_scope.

(** The decimal weights of the sepia filter are read as the nearest
    binary64 numbers, as Python reads them. *)
Set Warnings "-inexact-float".

(** ** Exceptions and results *)

Inductive exn :=
  | IndexError     (* sequence index out of range / choice from [] *)
  | ValueError
  | ZeroDivisionError
  | OverflowError.

Inductive result (A : Type) :=
  | Ok (a : A)
  | Raise (e : exn).
Arguments Ok {A} a.
Arguments Raise {A} e.

Definition result_bind {A B} (r : result A) (k : A -> result B) : result B :=
  match r with
  | Ok a => k a
  | Raise e => Raise e
  end.

(** ** Values of the Python runtime used by the generator *)

(** *** Integer formatting: [f"{i:03d}"] *)

Definition str_of_N (n : N) : string :=
  NilEmpty.string_of_uint (N.to_uint n).

Fixpoint zeros (k : nat) : string :=
  match k with
  | O => EmptyString
  | S k' => String "0" (zeros k')
  end.

(** Left-pad with ["0"] up to [width] characters. *)
Definition zfill (width : nat) (s : string) : string :=
  zeros (width - String.length s) +:+ s.

(** The sign counts in the width: [f"{-5:03d}"] is ["-05"]. *)
Definition format_03d (i : Z) : string :=
  if i <? 0 then "-" +:+ zfill 2 (str_of_N (Z.to_N (- i)))
  else zfill 3 (str_of_N (Z.to_N i)).

(** *** [template.format(domain=domain)]

    Every template of the generator has the single replacement field
    [{domain}] and no other brace. *)
Fixpoint format_fields (skip : nat) (template domain : string) : string :=
  match template with
  | EmptyString => EmptyString
  | String c rest =>
      match skip with
      | S k => format_fields k rest domain
      | O =>
          if String.prefix "{domain}" template
          then domain +:+ format_fields 7 rest domain
          else String c (format_fields 0 rest domain)
      end
  end.

Definition format_domain (template domain : string) : string :=
  format_fields 0 template domain.

(** *** [datetime] and [timedelta]

    A naive [datetime] is its number of microseconds since
    1970-01-01 00:00:00 in the proleptic Gregorian calendar; a
    [timedelta] is a number of microseconds. *)

Definition us_per_second : Z := 1000000.
Definition us_per_day : Z := 86400 * us_per_second.

Definition is_leap (y : Z) : bool :=
  (y mod 4 =? 0) && (negb (y mod 100 =? 0) || (y mod 400 =? 0)).

Definition days_in_month (y m : Z) : Z :=
  if m =? 2 then (if is_leap y then 29 else 28)
  else if (m =? 4) || (m =? 6) || (m =? 9) || (m =? 11) then 30
  else 31.

(** Days from 1970-01-01 to the civil date [y-m-d]. *)
Definition days_from_civil (y m d : Z) : Z :=
  let y' := if m <=? 2 then y - 1 else y in
  let era := y' / 400 in
  let yoe := y' - era * 400 in
  let mp := if m <=? 2 then m + 9 else m - 3 in
  let doy := (153 * mp + 2) / 5 + d - 1 in
  let doe := yoe * 365 + yoe / 4 - yoe / 100 + doy in
  era * 146097 + doe - 719468.

(** [datetime(year, month, day, hour, minute, second)]: [ValueError]
    outside the calendar. *)
Definition datetime (year month day hour minute second : Z) : result Z :=
  if (1 <=? year) && (year <=? 9999) && (1 <=? month) && (month <=? 12)
     && (1 <=? day) && (day <=? days_in_month year month)
     && (0 <=? hour) && (hour <=? 23) && (0 <=? minute) && (minute <=? 59)
     && (0 <=? second) && (second <=? 59)
  then Ok (days_from_civil year month day * us_per_day
           + ((hour * 60 + minute) * 60 + second) * us_per_second)
  else Raise ValueError.

(** Round to the nearest integer, ties to even (Python's [round]). *)
Definition round_half_even (q : Q) : Z :=
  let f := Qfloor q in
  match (q - inject_Z f ?= 1 # 2)%Q with
  | Lt => f
  | Gt => f + 1
  | Eq => if Z.even f then f else f + 1
  end.

(** [timedelta(days=d, seconds=s)] for real [d] and [s], rounded to the
    microsecond. *)
Definition timedelta (days seconds : Q) : Z :=
  round_half_even ((days * inject_Z 86400 + seconds)
                   * inject_Z us_per_second)%Q.

(** [delta.days] *)
Definition timedelta_days (delta : Z) : Z := delta / us_per_day.

(** [round(x, 1)] *)
Definition round1 (x : Q) : Q :=
  (inject_Z (round_half_even (x * inject_Z 10)) / inject_Z 10)%Q.

(** ** The participant table *)

Record row := Row {
  Participant_ID : string;
  Name : string;
  Age : Z;
  Gender : string;
  College : string;
  State : string;
  Domain : string;
  Day : Z;
  Registration_Time : Z;
  Time_Spent : Q;
  Project_Completion : Z;
  Feedback : string
}.

(** A [DataFrame] built from a list of such dictionaries. *)
Abbreviation table := (list row).

(** ** The fixed pools of [generate_dataset] *)

Definition first_names : list string :=
  ["James"; "Mary"; "John"; "Patricia"; "Robert"; "Jennifer"; "Michael";
   "Linda"; "William"; "Elizabeth"; "David"; "Susan"; "Richard"; "Jessica";
   "Joseph"; "Sarah"; "Thomas"; "Karen"; "Charles"; "Nancy"; "Christopher";
   "Lisa"; "Daniel"; "Margaret"; "Matthew"; "Betty"; "Anthony"; "Sandra";
   "Donald"; "Ashley"; "Mark"; "Dorothy"; "Paul"; "Kimberly"; "Steven";
   "Emily"; "Andrew"; "Donna"; "Kenneth"; "Michelle"; "Joshua"; "Carol";
   "Kevin"; "Amanda"; "Brian"; "Melissa"; "George"; "Deborah"; "Edward";
   "Stephanie"; "Ronald"; "Rebecca"; "Timothy"; "Laura"; "Jason"; "Helen";
   "Jeffrey"; "Sharon"; "Ryan"; "Cynthia"; "Rajesh"; "Priya"; "Sanjay";
   "Neha"; "Vikram"; "Ananya"; "Arun"; "Kavita"; "Amit"; "Deepika"].

Definition last_names : list string :=
  ["Smith"; "Johnson"; "Williams"; "Brown"; "Jones"; "Garcia"; "Miller";
   "Davis"; "Rodriguez"; "Martinez"; "Hernandez"; "Lopez"; "Gonzalez";
   "Wilson"; "Anderson"; "Thomas"; "Taylor"; "Moore"; "Jackson"; "Martin";
   "Lee"; "Perez"; "Thompson"; "White"; "Harris"; "Sanchez"; "Clark";
   "Ramirez"; "Lewis"; "Robinson"; "Walker"; "Young"; "Allen"; "King";
   "Wright"; "Scott"; "Torres"; "Nguyen"; "Hill"; "Flores"; "Patel";
   "Sharma"; "Singh"; "Kumar"; "Shah"; "Gupta"; "Verma"; "Joshi";
   "Malhotra"; "Chopra"].

Definition colleges : list string :=
  ["IIT Bombay"; "IIT Delhi"; "IIT Madras"; "IIT Kanpur"; "IIT Kharagpur";
   "BITS Pilani"; "BITS Hyderabad"; "BITS Goa"; "NIT Trichy";
   "NIT Warangal"; "NIT Surathkal"; "Delhi Technological University";
   "VIT Vellore"; "IIIT Hyderabad"; "Manipal Institute of Technology";
   "SRM University"; "Amrita University"; "Thapar University";
   "College of Engineering Pune"; "PES University";
   "SSN College of Engineering"; "RV College of Engineering";
   "BMS College of Engineering"; "MS Ramaiah Institute of Technology";
   "Jadavpur University"; "Anna University"; "KIIT University";
   "LNM Institute of Technology"; "Chandigarh University";
   "Amity University"; "Lovely Professional University";
   "Shiv Nadar University"].

Definition positive_feedback : list string :=
  ["I loved the {domain} hackathon! The mentors were very helpful.";
   "Great experience in the {domain} event. Would definitely participate again!";
   "The {domain} challenge was tough but rewarding. Learned a lot!";
   "Amazing organization and support at the {domain} track!";
   "Very insightful {domain} hackathon. Made great connections!";
   "Thoroughly enjoyed working on {domain} projects. The workshops were excellent!";
   "Well-structured {domain} challenges. Got valuable industry exposure.";
   "The {domain} event was eye-opening! Can't wait for the next one.";
   "Gained practical knowledge about {domain}. Very beneficial for my career.";
   "Excellent facilities and resources for the {domain} hackathon!"].

Definition neutral_feedback : list string :=
  ["The {domain} hackathon was okay. Some aspects could be improved.";
   "Average experience at the {domain} event. Nothing special.";
   "The {domain} track had some good and bad moments.";
   "Decent organization of the {domain} hackathon. Expected more mentorship.";
   "The {domain} challenge was moderately difficult. Internet connection was spotty.";
   "Food could be better at the {domain} event, but overall it was fine.";
   "The {domain} workshops were informative but too short.";
   "Mixed feelings about the {domain} track. Some judges seemed biased.";
   "The {domain} hackathon schedule was too tight. Barely had time to complete.";
   "Moderate learning experience in {domain}. Not sure if I'll participate again."].

Definition negative_feedback : list string :=
  ["The {domain} hackathon was disappointing. Poor organization.";
   "Not enough guidance in the {domain} track. Felt lost most of the time.";
   "Too many technical issues during the {domain} challenge.";
   "The {domain} event was overcrowded and noisy. Couldn't focus.";
   "Unclear instructions for the {domain} hackathon. Very frustrating.";
   "The {domain} mentors were rarely available when needed.";
   "The {domain} track was too advanced for beginners. More tutorials needed.";
   "Poor facilities at the {domain} event. No proper rest areas.";
   "The {domain} hackathon was exhausting with minimal benefits.";
   "Didn't learn much from the {domain} workshops. Too basic content."].

Definition domain_keywords : gmap string (list string) :=
  list_to_map [
    ("Web Development",
     ["HTML"; "CSS"; "JavaScript"; "React"; "frontend"; "backend"; "API";
      "responsive"]);
    ("Mobile App Development",
     ["Android"; "iOS"; "Flutter"; "React Native"; "UI/UX"; "mobile"; "app"]);
    ("AI/ML",
     ["machine learning"; "neural networks"; "algorithms"; "data"; "models";
      "tensorflow"; "pytorch"]);
    ("Blockchain",
     ["crypto"; "smart contracts"; "decentralized"; "ethereum"; "tokens";
      "web3"; "ledger"]);
    ("IoT",
     ["sensors"; "devices"; "connectivity"; "embedded"; "Arduino";
      "Raspberry Pi"; "automation"]);
    ("Cybersecurity",
     ["security"; "encryption"; "vulnerability"; "firewall"; "protection";
      "hacking"; "privacy"]);
    ("Game Development",
     ["Unity"; "Unreal"; "gameplay"; "graphics"; "mechanics"; "levels";
      "characters"]);
    ("Data Science",
     ["visualization"; "analytics"; "big data"; "pandas"; "prediction";
      "statistics"; "insights"])
  ].

(** ** The pseudo-random generator interface

    [random.seed], [random.random] and [random._randbelow] are the
    primitives every other function of the module is built from:
    [random()] lies in [[0, 1)] and [_randbelow(n)] in [[0, n)] for a
    positive [n].  [numpy.random.seed] reseeds numpy's own global
    generator, which the program never draws from.  Seeding is taken to
    succeed, as it does for the seeds the page offers (0 to 9999). *)

Class PRNG := {
  rng : Type;
  np_rng : Type;
  rng_seed : Z -> rng;
  np_rng_seed : Z -> np_rng;
  rng_random : rng -> Q * rng;
  rng_randbelow : Z -> rng -> Z * rng;
  rng_random_range : forall g,
    (0 <= fst (rng_random g))%Q /\ (fst (rng_random g) < 1)%Q;
  rng_randbelow_range : forall n g,
    0 < n -> 0 <= fst (rng_randbelow n g) < n
}.

Section Generator.
Context {G : PRNG}.

(** The two module-level generators. *)
Record world := World { py_random : rng; np_random : np_rng }.

(** State passing with exceptions: a computation reads and writes the
    generators and either returns or raises. *)
Definition M (A : Type) : Type := world -> result A * world.

Definition ret {A} (a : A) : M A := fun w => (Ok a, w).
Definition raise {A} (e : exn) : M A := fun w => (Raise e, w).
Definition bind {A B} (m : M A) (k : A -> M B) : M B :=
  fun w => match m w with
           | (Ok a, w1) => k a w1
           | (Raise e, w1) => (Raise e, w1)
           end.

Notation "x <- m ;; k" := (bind m (fun x => k))
  (at level 90, m at level 80, right associativity).
Notation "m ;;; k" := (bind m (fun _ => k))
  (at level 90, right associativity).

(** *** The [random] module *)

Definition random_seed (seed : Z) : M unit :=
  fun w => (Ok tt, World (rng_seed seed) (np_random w)).

Definition np_random_seed (seed : Z) : M unit :=
  fun w => (Ok tt, World (py_random w) (np_rng_seed seed)).

Definition random_random : M Q :=
  fun w => let (u, g) := rng_random (py_random w) in
           (Ok u, World g (np_random w)).

Definition randbelow (n : Z) : M Z :=
  fun w => let (k, g) := rng_randbelow n (py_random w) in
           (Ok k, World g (np_random w)).

(** [random.choice(seq)]: [IndexError] on an empty sequence, else
    [seq[_randbelow(len(seq))]]. *)
Definition random_choice {A} (seq : list A) : M A :=
  match seq with
  | [] => raise IndexError
  | _ => i <- randbelow (Z.of_nat (length seq)) ;;
         match seq !! Z.to_nat i with
         | Some x => ret x
         | None => raise IndexError
         end
  end.

(** [random.randint(a, b)] is [randrange(a, b+1)]: [ValueError] on an
    empty range, else [a + _randbelow(b + 1 - a)]. *)
Definition random_randint (a b : Z) : M Z :=
  if 0 <? b + 1 - a
  then k <- randbelow (b + 1 - a) ;; ret (a + k)
  else raise ValueError.

(** [random.uniform(a, b)] is [a + (b - a) * random()]. *)
Definition random_uniform (a b : Q) : M Q :=
  u <- random_random ;; ret (a + (b - a) * u)%Q.

(** [itertools.accumulate] and [bisect.bisect], as [random.choices]
    uses them.  On the increasing list of cumulative weights, right
    bisection over [a[0:hi]] is the number of leading entries that do
    not exceed [x]. *)
Fixpoint accumulate_from (acc : Q) (ws : list Q) : list Q :=
  match ws with
  | [] => []
  | x :: ws' => (acc + x)%Q :: accumulate_from (acc + x)%Q ws'
  end.

Definition accumulate (ws : list Q) : list Q :=
  match ws with
  | [] => []
  | x :: ws' => x :: accumulate_from x ws'
  end.

Fixpoint bisect (a : list Q) (x : Q) (hi : nat) : nat :=
  match hi, a with
  | S hi', y :: a' => if Qle_bool y x then S (bisect a' x hi') else O
  | _, _ => O
  end.

(** [random.choices(population, weights=weights)] with the default
    [k = 1]: a one-element list. *)
Definition random_choices {A} (population : list A) (weights : list Q)
  : M (list A) :=
  let cum_weights := accumulate weights in
  if negb (length cum_weights =? length population)%nat then raise ValueError
  else
    match last cum_weights with
    | None => raise IndexError
    | Some total =>
        if Qle_bool total 0 then raise ValueError
        else
          u <- random_random ;;
          match population !! bisect cum_weights (u * total)%Q
                                (length population - 1) with
          | Some x => ret [x]
          | None => raise IndexError
          end
    end.

(** Subscript [l[i]] on a list. *)
Definition subscript {A} (l : list A) (i : nat) : M A :=
  match l !! i with
  | Some x => ret x
  | None => raise IndexError
  end.

(** ** [generate_dataset] *)

Definition lift {A} (r : result A) : M A := fun w => (r, w).

(** [for i in range(...)]: run the body for each index, appending what it
    builds. *)
Fixpoint for_each {A} (indices : list Z) (body : Z -> M A) : M (list A) :=
  match indices with
  | [] => ret []
  | i :: rest =>
      x <- body i ;;
      xs <- for_each rest body ;;
      ret (x :: xs)
  end.

(** The inner function of [generate_dataset]. *)
Definition random_date_time (start_date end_date : Z) : M Z :=
  let delta := end_date - start_date in
  u1 <- random_random ;;
  let random_days := (u1 * inject_Z (timedelta_days delta))%Q in
  u2 <- random_random ;;
  let random_seconds := (u2 * inject_Z 86400)%Q in
  ret (start_date + timedelta random_days random_seconds).

(** One iteration of the loop.  Besides the dictionary it appends, the
    body hands back its local [sentiment], which the table does not
    keep. *)
Definition participant (domains states : list string) (i : Z)
  : M (string * row) :=
  let participant_id := "P" +:+ format_03d i in
  first <- random_choice first_names ;;
  last <- random_choice last_names ;;
  let name := first +:+ " " +:+ last in
  age <- random_randint 18 35 ;;
  gender <- random_choice ["Male"; "Female"; "Other"] ;;
  college <- random_choice colleges ;;
  state <- random_choice states ;;
  domain <- random_choice domains ;;
  day <- random_randint 1 3 ;;
  start_date <- lift (datetime 2023 3 15 0 0 0) ;;
  end_date <- lift (datetime 2023 3 (15 + day - 1) 23 59 59) ;;
  registration_time <- random_date_time start_date end_date ;;
  hours <- random_uniform 4 10 ;;
  let time_spent := round1 hours in
  drawn <- random_choices ["positive"; "neutral"; "negative"]
                          [0.6; 0.3; 0.1]%Q ;;
  sentiment <- subscript drawn 0 ;;
  template <- (if String.eqb sentiment "positive"
               then random_choice positive_feedback
               else if String.eqb sentiment "neutral"
               then random_choice neutral_feedback
               else random_choice negative_feedback) ;;
  let feedback := format_domain template domain in
  feedback <- match domain_keywords !! domain with
              | Some keywords =>
                  keyword <- random_choice keywords ;;
                  ret (feedback +:+ " The " +:+ keyword
                       +:+ " component was particularly interesting.")
              | None => ret feedback
              end ;;
  project_completion <- (if negb (String.eqb sentiment "negative")
                         then random_randint 60 100
                         else random_randint 30 85) ;;
  ret (sentiment,
       {| Participant_ID := participant_id;
          Name := name;
          Age := age;
          Gender := gender;
          College := college;
          State := state;
          Domain := domain;
          Day := day;
          Registration_Time := registration_time;
          Time_Spent := time_spent;
          Project_Completion := project_completion;
          Feedback := feedback |}).

Definition generate_dataset (num_participants : Z)
    (domains states : list string) (seed : Z) : M table :=
  random_seed seed ;;;
  np_random_seed seed ;;;
  for_each (seqZ 1 num_participants)
           (fun i => p <- participant domains states i ;; ret (snd p)).

(** ** [generate_dataset_page]

    The widgets as the user left them, the session's dataset, and the
    messages the page shows.  An uploaded file stands for the table
    [pd.read_csv] reads from it. *)

Record widgets := Widgets {
  num_participants_slider : Z;
  domains_multiselect : list string;
  states_multiselect : list string;
  seed_input : Z;
  generate_clicked : bool;
  uploaded_file : option table
}.

Inductive message :=
  | st_error (text : string)
  | st_success (text : string).

Record page := Page {
  returned : option table;
  hackathon_data : option table;
  shown : list message
}.

Definition str_of_len {A} (l : list A) : string :=
  str_of_N (N.of_nat (length l)).

Definition generate_dataset_page (ui : widgets) (session : option table)
  : M page :=
  if (length (domains_multiselect ui) <? 1)%nat
  then ret {| returned := None;
              hackathon_data := session;
              shown := [st_error "Please select at least one domain"] |}
  else
    clicked <-
      (if generate_clicked ui
       then
         data <- generate_dataset (num_participants_slider ui)
                   (domains_multiselect ui) (states_multiselect ui)
                   (seed_input ui) ;;
         ret (Some data,
              [st_success ("Successfully generated dataset with "
                           +:+ str_of_len data +:+ " participants!");
               st_success
                 "Dataset also saved locally as 'hackathon_data.csv'"])
       else ret (session, [])) ;;
    let uploaded :=
      match uploaded_file ui with
      | Some data =>
          (Some data,
           [st_success ("Successfully loaded dataset with "
                        +:+ str_of_len data +:+ " entries!")])
      | None => (fst clicked, [])
      end in
    ret {| returned := fst uploaded;
           hackathon_data := fst uploaded;
           shown := snd clicked ++ snd uploaded |}.

End Generator.

(** ** Text *)

Definition lower_char (c : ascii) : ascii :=
  let n := nat_of_ascii c in
  if ((65 <=? n) && (n <=? 90))%nat then ascii_of_nat (n + 32) else c.

(** [s.lower()] on ASCII text. *)
Fixpoint lower (s : string) : string :=
  match s with
  | EmptyString => EmptyString
  | String c rest => String (lower_char c) (lower rest)
  end.

(** Does [pat] occur in [s]? *)
Fixpoint occurs (pat s : string) : bool :=
  String.prefix pat s
  || match s with
     | EmptyString => false
     | String _ rest => occurs pat rest
     end.

(** Every character of [s] satisfies [p]. *)
Fixpoint all_chars (p : ascii -> bool) (s : string) : bool :=
  match s with
  | EmptyString => true
  | String c rest => p c && all_chars p rest
  end.

(** ** The common-word table of [feedback_analysis] *)

Definition stopwords : list string :=
  ["i"; "me"; "my"; "myself"; "we"; "our"; "ours"; "ourselves"; "you";
   "you're"; "you've"; "you'll"; "you'd"; "your"; "yours"; "yourself";
   "yourselves"; "he"; "him"; "his"; "himself"; "she"; "she's"; "her";
   "hers"; "herself"; "it"; "it's"; "its"; "itself"; "they"; "them";
   "their"; "theirs"; "themselves"; "what"; "which"; "who"; "whom"; "this";
   "that"; "that'll"; "these"; "those"; "am"; "is"; "are"; "was"; "were";
   "be"; "been"; "being"; "have"; "has"; "had"; "having"; "do"; "does";
   "did"; "doing"; "a"; "an"; "the"; "and"; "but"; "if"; "or"; "because";
   "as"; "until"; "while"; "of"; "at"; "by"; "for"; "with"; "about";
   "against"; "between"; "into"; "through"; "during"; "before"; "after";
   "above"; "below"; "to"; "from"; "up"; "down"; "in"; "out"; "on"; "off";
   "over"; "under"; "again"; "further"; "then"; "once"; "here"; "there";
   "when"; "where"; "why"; "how"; "all"; "any"; "both"; "each"; "few";
   "more"; "most"; "other"; "some"; "such"; "no"; "nor"; "not"; "only";
   "own"; "same"; "so"; "than"; "too"; "very"; "s"; "t"; "can"; "will";
   "just"; "don"; "don't"; "should"; "should've"; "now"; "d"; "ll"; "m";
   "o"; "re"; "ve"; "y"; "ain"; "aren"; "aren't"; "couldn"; "couldn't";
   "didn"; "didn't"; "doesn"; "doesn't"; "hadn"; "hadn't"; "hasn"; "hasn't";
   "haven"; "haven't"; "isn"; "isn't"; "ma"; "mightn"; "mightn't"; "mustn";
   "mustn't"; "needn"; "needn't"; "shan"; "shan't"; "shouldn"; "shouldn't";
   "wasn"; "wasn't"; "weren"; "weren't"; "won"; "won't"; "wouldn";
   "wouldn't"; "the"; "was"; "and"; "for"; "would"].

Definition is_alpha (c : ascii) : bool :=
  let n := nat_of_ascii c in
  (((65 <=? n) && (n <=? 90)) || ((97 <=? n) && (n <=? 122)))%nat.

Definition is_digit (c : ascii) : bool :=
  let n := nat_of_ascii c in ((48 <=? n) && (n <=? 57))%nat.

(** The class [\w] on ASCII text. *)
Definition is_word_char (c : ascii) : bool :=
  is_alpha c || is_digit c || Ascii.eqb c "_".

Definition word_side (c : option ascii) : bool :=
  match c with
  | Some c => is_word_char c
  | None => false
  end.

(** [\b] between two neighbouring positions. *)
Definition word_boundary (prev next : option ascii) : bool :=
  xorb (word_side prev) (word_side next).

Definition head_char (s : string) : option ascii :=
  match s with
  | EmptyString => None
  | String c _ => Some c
  end.

(** [[a-zA-Z]{k}] at the head of [s]: the text matched, its last
    character and what follows. *)
Fixpoint letters (k : nat) (s : string) : option (string * ascii * string) :=
  match k, s with
  | S O, String c rest =>
      if is_alpha c then Some (String c EmptyString, c, rest) else None
  | S k', String c rest =>
      if is_alpha c
      then match letters k' rest with
           | Some (tok, l, after) => Some (String c tok, l, after)
           | None => None
           end
      else None
  | _, _ => None
  end.

(** [[a-zA-Z]{lo,lo+n-1}\b] at the head of [s], greedy: the longest
    repetition first, backing off one letter at a time. *)
Fixpoint letters_then_boundary (lo n : nat) (s : string) : option string :=
  match n with
  | O => None
  | S n' =>
      match letters (lo + n') s with
      | Some (tok, l, after) =>
          if word_boundary (Some l) (head_char after) then Some tok
          else letters_then_boundary lo n' s
      | None => letters_then_boundary lo n' s
      end
  end.

(** [re.findall(r'\b[a-zA-Z]{3,15}\b', s)], scanning left to right;
    [prev] is the character before the current position and [skip] the
    number of characters still covered by the last match. *)
Fixpoint findall_from (prev : option ascii) (skip : nat) (s : string)
  : list string :=
  match s with
  | EmptyString => []
  | String c rest =>
      match skip with
      | S k => findall_from (Some c) k rest
      | O =>
          if word_boundary prev (Some c)
          then match letters_then_boundary 3 13 s with
               | Some tok =>
                   tok :: findall_from (Some c) (String.length tok - 1) rest
               | None => findall_from (Some c) 0 rest
               end
          else findall_from (Some c) 0 rest
      end
  end.

Definition findall_words (s : string) : list string :=
  findall_from None 0 s.

(** [word not in stopwords] *)
Definition in_list (w : string) (l : list string) : bool :=
  existsb (String.eqb w) l.

(** [collections.Counter]: a dictionary in insertion order. *)
Fixpoint counter_add (w : string) (c : list (string * nat))
  : list (string * nat) :=
  match c with
  | [] => [(w, 1%nat)]
  | (w', n) :: c' =>
      if String.eqb w w' then (w', S n) :: c'
      else (w', n) :: counter_add w c'
  end.

Definition Counter (words : list string) : list (string * nat) :=
  fold_left (fun c w => counter_add w c) words [].

(** [sorted(items, key=itemgetter(1), reverse=True)]: stable, so equal
    counts keep the order of the dictionary. *)
Fixpoint insert_by_count (x : string * nat) (l : list (string * nat))
  : list (string * nat) :=
  match l with
  | [] => [x]
  | y :: l' =>
      if (snd x <? snd y)%nat then y :: insert_by_count x l'
      else x :: y :: l'
  end.

Definition sorted_by_count (items : list (string * nat))
  : list (string * nat) :=
  foldr insert_by_count [] items.

(** [Counter.most_common(n)] *)
Definition most_common (n : nat) (c : list (string * nat))
  : list (string * nat) :=
  take n (sorted_by_count c).

(** The words of the bar chart. *)
Definition word_counts (combined_feedback : string) : list (string * nat) :=
  let words := findall_words (lower combined_feedback) in
  let words := List.filter (fun word => negb (in_list word stopwords)) words in
  most_common 15 (Counter words).

(** ** The sepia filter of [image_processing] *)

Open Scope float_scope.

(** [float(z)]; exact for magnitudes below [2^53], which covers every
    channel value. *)
Definition float_of_Z (z : Z) : float :=
  if (z <? 0)%Z then - PrimFloat.of_uint63 (Uint63.of_Z (- z))
  else PrimFloat.of_uint63 (Uint63.of_Z z).

(** [int(x)]: truncation towards zero. *)
Definition int_of_float (x : float) : result Z :=
  match Prim2SF x with
  | S754_zero _ => Ok 0%Z
  | S754_finite s m e =>
      let magnitude := Z.shiftl (Zpos m) e in
      Ok (if s then (- magnitude)%Z else magnitude)
  | S754_infinity _ => Raise OverflowError
  | S754_nan => Raise ValueError
  end.

(** [c1 * r + c2 * g + c3 * b], the channels converted to floats. *)
Definition weighted (c1 c2 c3 : float) (r g b : Z) : float :=
  c1 * float_of_Z r + c2 * float_of_Z g + c3 * float_of_Z b.

(** [if t > 255: t = 255] *)
Definition clamp255 (t : Z) : Z := if (t >? 255)%Z then 255%Z else t.

(** The body of the two pixel loops: the new value of one pixel. *)
Definition sepia_pixel (p : Z * Z * Z) : result (Z * Z * Z) :=
  let '(r, g, b) := p in
  result_bind (int_of_float (weighted 0.393 0.769 0.189 r g b)) (fun tr =>
  result_bind (int_of_float (weighted 0.349 0.686 0.168 r g b)) (fun tg =>
  result_bind (int_of_float (weighted 0.272 0.534 0.131 r g b)) (fun tb =>
  let tr := clamp255 tr in
  let tg := clamp255 tg in
  let tb := clamp255 tb in
  Ok (tr, tg, tb)))).

Close Scope float_scope.

(** ** The keyword sentiment gauge of [domain_feedback_analysis] *)

(** Only bytes below 128: the text is ASCII. *)
Definition is_ascii (s : string) : bool :=
  all_chars (fun c => (nat_of_ascii c <? 128)%nat) s.

(** [Series.str.contains(word, case=False)] on one entry is a search
    with the regular-expression engine, Unicode-aware and outside this
    repository.  It is taken as an interface, with what the search does
    on ASCII text for a pattern made of letters: the pattern is found
    exactly when it occurs in the entry once both are in lower case. *)
Class StrContains := {
  str_contains_nocase : string -> string -> bool;
  str_contains_ascii : forall word s,
    all_chars is_alpha word = true -> is_ascii s = true ->
    str_contains_nocase word s = occurs (lower word) (lower s)
}.

(** A Python number: an [int], or a binary64 [float]. *)
Inductive number :=
  | Int (n : Z)
  | Float (x : float).

Definition positive_keywords : list string :=
  ["loved"; "great"; "amazing"; "excellent"; "insightful"; "enjoyed";
   "beneficial"; "helpful"; "rewarding"; "best"].
Definition negative_keywords : list string :=
  ["disappointing"; "poor"; "issues"; "frustrating"; "unclear";
   "exhausting"; "minimal"; "bad"; "lost"; "overcrowded"].

(** True division [a / b] of numpy integers: both are converted to
    binary64 and the quotient is rounded; nothing is raised. *)
Definition truediv (a b : Z) : float :=
  (float_of_Z a / float_of_Z b)%float.

(** [(count / total_keywords * 100) if total_keywords > 0 else 0] *)
Definition percent_of (count total_keywords : Z) : number :=
  if total_keywords >? 0
  then Float (truediv count total_keywords * 100)%float
  else Int 0.

Section Gauge.
Context {P : StrContains}.

(** [Series.str.contains(word, case=False).sum()] *)
Definition contains_sum (feedback : list string) (word : string) : Z :=
  Z.of_nat (length (filter (fun s => str_contains_nocase word s = true)
                           feedback)).

(** [sum(... for word in keywords)] *)
Definition keyword_count (feedback keywords : list string) : Z :=
  fold_left Z.add (map (contains_sum feedback) keywords) 0.

Definition positive_count (feedback : list string) : Z :=
  keyword_count feedback positive_keywords.
Definition negative_count (feedback : list string) : Z :=
  keyword_count feedback negative_keywords.
Definition total_keywords (feedback : list string) : Z :=
  positive_count feedback + negative_count feedback.

Definition positive_percent (feedback : list string) : number :=
  percent_of (positive_count feedback) (total_keywords feedback).
Definition negative_percent (feedback : list string) : number :=
  percent_of (negative_count feedback) (total_keywords feedback).

End Gauge.

(** The search on ASCII text, as an instance to run the gauge on
    concrete feedback. *)
Definition ascii_search : StrContains :=
  {| str_contains_nocase := fun word s => occurs (lower word) (lower s);
     str_contains_ascii := fun _ _ _ _ => eq_refl |}.

(** ** A concrete generator

    A 64-bit linear congruential generator that meets the [PRNG]
    interface; it serves to run the model on concrete inputs.  No
    theorem below depends on which generator is plugged in; the
    generator CPython ships follows. *)

Definition lcg_step (s : Z) : Z :=
  (6364136223846793005 * s + 1442695040888963407) mod 18446744073709551616.

Definition lcg_random (g : Z) : Q * Z :=
  let g' := lcg_step g in
  (Qmake ((g' / 2048) mod 9007199254740992) 9007199254740992, g').

Definition lcg_randbelow (n g : Z) : Z * Z :=
  let g' := lcg_step g in
  (if 0 <? n then (g' / 4294967296) mod n else 0, g').

Lemma lcg_random_range g :
  (0 <= fst (lcg_random g))%Q /\ (fst (lcg_random g) < 1)%Q.
Proof.
  unfold lcg_random, Qle, Qlt; simpl.
  pose proof (Z.mod_pos_bound (lcg_step g / 2048) 9007199254740992).
  lia.
Qed.

Lemma lcg_randbelow_range n g : 0 < n -> 0 <= fst (lcg_randbelow n g) < n.
Proof.
  intros Hn. unfold lcg_randbelow; simpl.
  destruct (Z.ltb_spec 0 n); [|lia].
  apply Z.mod_pos_bound; lia.
Qed.

Definition lcg64 : PRNG :=
  {| rng := Z;
     np_rng := Z;
     rng_seed := fun seed => lcg_step (seed mod 18446744073709551616);
     np_rng_seed := fun seed => seed;
     rng_random := lcg_random;
     rng_randbelow := lcg_randbelow;
     rng_random_range := lcg_random_range;
     rng_randbelow_range := lcg_randbelow_range |}.

(** The selections the page offers by default. *)
Definition default_domains : list string :=
  ["Web Development"; "Mobile App Development"; "AI/ML"; "Blockchain"; "IoT"].

Definition default_states : list string :=
  ["Maharashtra"; "Karnataka"; "Tamil Nadu"; "Delhi"; "Uttar Pradesh";
   "Gujarat"; "Telangana"; "West Bengal"; "Rajasthan"; "Punjab"].

(** The state of a fresh interpreter, before the page first runs. *)
Definition fresh_world : @world lcg64 := @World lcg64 0 0.

(** ** The generator of CPython

    The [random] module of CPython is the Mersenne Twister MT19937:
    [random.seed(n)] for an integer keys it with the 32-bit digits of
    [abs(n)], [random()] joins 27 and 26 bits of two outputs, and
    [_randbelow(n)] draws [n.bit_length()] bits until the value is below
    [n].  That loop ends with probability one; it is cut here after 1024
    rejections in a row. *)

Record mt_state := MT { mt_words : list Z; mt_index : nat }.

Definition uint32 (x : Z) : Z := x mod 4294967296.

Definition mt_word (mt : list Z) (i : nat) : Z := default 0 (mt !! i).

(** [init_genrand(s)] *)
Fixpoint init_words (n : nat) (i prev : Z) : list Z :=
  match n with
  | O => []
  | S n' =>
      let x := uint32 (1812433253 * Z.lxor prev (Z.shiftr prev 30) + i) in
      x :: init_words n' (i + 1) x
  end.

Definition init_genrand (s : Z) : list Z :=
  let s := uint32 s in s :: init_words 623 1 s.

(** The two loops of [init_by_array(init_key, key_length)]. *)
Fixpoint mix_key (k : nat) (key : list Z) (i j : nat) (mt : list Z)
  : nat * list Z :=
  match k with
  | O => (i, mt)
  | S k' =>
      let prev := mt_word mt (i - 1) in
      let x := uint32 (Z.lxor (mt_word mt i)
                              (Z.lxor prev (Z.shiftr prev 30) * 1664525)
                       + mt_word key j + Z.of_nat j) in
      let mt := <[i := x]> mt in
      let i := S i in
      let j := S j in
      let mt := if (624 <=? i)%nat then <[0%nat := mt_word mt 623]> mt else mt in
      let i := if (624 <=? i)%nat then 1%nat else i in
      let j := if (length key <=? j)%nat then 0%nat else j in
      mix_key k' key i j mt
  end.

Fixpoint mix_index (k : nat) (i : nat) (mt : list Z) : list Z :=
  match k with
  | O => mt
  | S k' =>
      let prev := mt_word mt (i - 1) in
      let x := uint32 (Z.lxor (mt_word mt i)
                              (Z.lxor prev (Z.shiftr prev 30) * 1566083941)
                       - Z.of_nat i) in
      let mt := <[i := x]> mt in
      let i := S i in
      let mt := if (624 <=? i)%nat then <[0%nat := mt_word mt 623]> mt else mt in
      let i := if (624 <=? i)%nat then 1%nat else i in
      mix_index k' i mt
  end.

Definition init_by_array (key : list Z) : mt_state :=
  let mt := init_genrand 19650218 in
  let (i, mt) := mix_key (Nat.max 624 (length key)) key 1 0 mt in
  let mt := mix_index 623 i mt in
  MT (<[0%nat := 2147483648]> mt) 624.

(** The 32-bit digits of [abs(seed)], least significant first; [[0]]
    for 0. *)
Fixpoint key_digits (fuel : nat) (n : Z) : list Z :=
  match fuel with
  | O => []
  | S fuel' =>
      if n <? 4294967296 then [n]
      else uint32 n :: key_digits fuel' (n / 4294967296)
  end.

Definition mt_seed (seed : Z) : mt_state :=
  let n := Z.abs seed in
  init_by_array (key_digits (S (Z.to_nat (Z.log2 n))) n).

(** Regenerating the 624 words, in place and in the order of the C
    loop. *)
Definition twist_word (mt : list Z) (kk : nat) : list Z :=
  let y := Z.lor (Z.land (mt_word mt kk) 2147483648)
                 (Z.land (mt_word mt ((kk + 1) mod 624)) 2147483647) in
  <[kk := Z.lxor (Z.lxor (mt_word mt ((kk + 397) mod 624)) (Z.shiftr y 1))
                 (if Z.odd y then 2567483615 else 0)]> mt.

Definition twist (mt : list Z) : list Z := fold_left twist_word (seq 0 624) mt.

Definition temper (y : Z) : Z :=
  let y := Z.lxor y (Z.shiftr y 11) in
  let y := Z.lxor y (Z.land (Z.shiftl y 7) 2636928640) in
  let y := Z.lxor y (Z.land (Z.shiftl y 15) 4022730752) in
  Z.lxor y (Z.shiftr y 18).

(** [genrand_uint32] *)
Definition genrand_uint32 (g : mt_state) : Z * mt_state :=
  let g := if (624 <=? mt_index g)%nat then MT (twist (mt_words g)) 0 else g in
  (uint32 (temper (mt_word (mt_words g) (mt_index g))),
   MT (mt_words g) (S (mt_index g))).

(** [random()]: 53 bits from two words. *)
Definition mt_random (g : mt_state) : Q * mt_state :=
  let (a, g) := genrand_uint32 g in
  let (b, g) := genrand_uint32 g in
  (Qmake (Z.shiftr a 5 * 67108864 + Z.shiftr b 6) 9007199254740992, g).

(** [getrandbits(k)], the words least significant first. *)
Fixpoint getrandbits_words (words : nat) (k : Z) (g : mt_state) : Z * mt_state :=
  match words with
  | O => (0, g)
  | S words' =>
      let (r, g) := genrand_uint32 g in
      let r := if k <? 32 then Z.shiftr r (32 - k) else r in
      let (rest, g) := getrandbits_words words' (k - 32) g in
      (r + 4294967296 * rest, g)
  end.

Definition getrandbits (k : Z) (g : mt_state) : Z * mt_state :=
  if k <=? 32 then
    let (r, g) := genrand_uint32 g in (Z.shiftr r (32 - k), g)
  else getrandbits_words (Z.to_nat ((k - 1) / 32 + 1)) k g.

Definition bit_length (n : Z) : Z := if n =? 0 then 0 else Z.log2 n + 1.

(** [_randbelow_with_getrandbits(n)]: draw [n.bit_length()] bits until
    the value is below [n]. *)
Fixpoint randbelow_loop (fuel : nat) (n k : Z) (g : mt_state) : Z * mt_state :=
  let (r, g') := getrandbits k g in
  if r <? n then (r, g')
  else match fuel with
       | O => (r mod n, g')
       | S fuel' => randbelow_loop fuel' n k g'
       end.

Definition mt_randbelow (n : Z) (g : mt_state) : Z * mt_state :=
  if n <=? 0 then (0, g) else randbelow_loop 1024 n (bit_length n) g.


Lemma genrand_uint32_range g : 0 <= fst (genrand_uint32 g) < 4294967296.
Proof. unfold genrand_uint32, uint32. simpl. apply Z.mod_pos_bound. lia. Qed.

Lemma mt_random_range g :
  (0 <= fst (mt_random g))%Q /\ (fst (mt_random g) < 1)%Q.
Proof.
  unfold mt_random.
  pose proof (genrand_uint32_range g) as Ha.
  destruct (genrand_uint32 g) as [a g1]. cbn [fst] in Ha.
  pose proof (genrand_uint32_range g1) as Hb.
  destruct (genrand_uint32 g1) as [b g2]. cbn [fst] in Hb.
  unfold Qle, Qlt. cbn [fst Qnum Qden]. rewrite !Z.shiftr_div_pow2 by lia.
  change (2 ^ 5) with 32. change (2 ^ 6) with 64.
  assert (0 <= a / 32 < 134217728) by (split; [apply Z.div_pos|apply Z.div_lt_upper_bound]; lia).
  assert (0 <= b / 64 < 67108864) by (split; [apply Z.div_pos|apply Z.div_lt_upper_bound]; lia).
  lia.
Qed.

Lemma getrandbits_words_nonneg words k g :
  0 <= fst (getrandbits_words words k g).
Proof.
  revert k g. induction words as [|words IH]; intros k g;
    cbn [getrandbits_words fst]; [lia|].
  pose proof (genrand_uint32_range g) as Hr.
  destruct (genrand_uint32 g) as [r g1]. cbn [fst] in Hr.
  specialize (IH (k - 32) g1).
  destruct (getrandbits_words words (k - 32) g1) as [rest g2]. cbn [fst] in *.
  assert (0 <= (if k <? 32 then Z.shiftr r (32 - k) else r)).
  { destruct (k <? 32); [apply Z.shiftr_nonneg|]; lia. }
  lia.
Qed.

Lemma getrandbits_nonneg k g : 0 <= fst (getrandbits k g).
Proof.
  unfold getrandbits. destruct (k <=? 32).
  - pose proof (genrand_uint32_range g) as Hr.
    destruct (genrand_uint32 g) as [r g1]. cbn [fst] in *.
    apply Z.shiftr_nonneg. lia.
  - apply getrandbits_words_nonneg.
Qed.

Lemma randbelow_loop_range fuel n k g :
  0 < n -> 0 <= fst (randbelow_loop fuel n k g) < n.
Proof.
  intros Hn. revert g. induction fuel as [|fuel IH]; intros g;
    cbn [randbelow_loop];
    pose proof (getrandbits_nonneg k g) as Hr;
    destruct (getrandbits k g) as [r g1]; cbn [fst] in Hr;
    destruct (Z.ltb_spec r n); cbn [fst]; try lia.
  - apply Z.mod_pos_bound. lia.
  - apply IH.
Qed.

Lemma mt_randbelow_range n g : 0 < n -> 0 <= fst (mt_randbelow n g) < n.
Proof.
  intros Hn. unfold mt_randbelow. destruct (Z.leb_spec n 0); [lia|].
  now apply randbelow_loop_range.
Qed.

Definition mt19937 : PRNG :=
  {| rng := mt_state;
     np_rng := Z;
     rng_seed := mt_seed;
     np_rng_seed := fun seed => seed;
     rng_random := mt_random;
     rng_randbelow := mt_randbelow;
     rng_random_range := mt_random_range;
     rng_randbelow_range := mt_randbelow_range |}.

(** An interpreter whose generators were seeded with 0. *)
Definition cpython_world : @world mt19937 := @World mt19937 (mt_seed 0) 0.


(** ** Vocabulary of the statements *)

Section Outcomes.
Context {G : PRNG}.

(** [m] returns, from [w], a value satisfying [post]. *)
Definition returns {A} (m : M A) (post : A -> Prop) (w : world) : Prop :=
  exists a w', m w = (Ok a, w') /\ post a.

(** [m] raises [e] from [w]. *)
Definition raises {A} (m : M A) (e : exn) (w : world) : Prop :=
  exists w', m w = (Raise e, w').

(** [x] is a value some call of [m] returns. *)
Definition drawn_by {A} (m : M A) (x : A) : Prop :=
  exists w w', m w = (Ok x, w').

(** [0 <= u < 1] *)
Definition unit_interval (u : Q) : Prop := (0 <= u)%Q /\ (u < 1)%Q.

(** The first day of the event, [datetime(2023, 3, 15)]. *)
Definition event_epoch : Z := 1678838400000000.

(** What one iteration of the loop guarantees about the row it appends
    and the sentiment it drew. *)
Definition participant_post (domains states : list string) (i : Z)
    (p : string * row) : Prop :=
  let (sentiment, r) := p in
  Participant_ID r = "P" +:+ format_03d i
  /\ State r ∈ states
  /\ Domain r ∈ domains
  /\ 1 <= Day r <= 3
  /\ (exists u1 u2, unit_interval u1 /\ unit_interval u2
        /\ Registration_Time r =
             event_epoch + timedelta (u1 * inject_Z (Day r - 1))
                                     (u2 * inject_Z 86400))
  /\ sentiment ∈ ["positive"; "neutral"; "negative"]
  /\ (if String.eqb sentiment "negative"
      then drawn_by (random_randint 30 85) (Project_Completion r)
           /\ 30 <= Project_Completion r <= 85
      else drawn_by (random_randint 60 100) (Project_Completion r)
           /\ 60 <= Project_Completion r <= 100).

(** A row of the table, with the sentiment drawn for it. *)
Definition row_post (domains states : list string) (i : Z) (r : row) : Prop :=
  exists sentiment, participant_post domains states i (sentiment, r).

End Outcomes.

(** [lo <= Registration_Time <= hi] for two calendar instants. *)
Definition registered_between (lo hi : result Z) (r : row) : bool :=
  match lo, hi with
  | Ok lo, Ok hi =>
      (lo <=? Registration_Time r) && (Registration_Time r <=? hi)
  | _, _ => false
  end.

(** The window of the row's own day: from 00:00:00 to 23:59:59 of day
    [15 + Day - 1] of March 2023. *)
Definition in_own_day_window (r : row) : bool :=
  registered_between (datetime 2023 3 (15 + Day r - 1) 0 0 0)
                     (datetime 2023 3 (15 + Day r - 1) 23 59 59) r.

(** Not before the start of the event, [datetime(2023, 3, 15)]. *)
Definition from_event_start (r : row) : bool :=
  match datetime 2023 3 15 0 0 0 with
  | Ok lo => lo <=? Registration_Time r
  | Raise _ => false
  end.

Section Fractions.
Context {P : StrContains}.

(** The positive fraction in the words of the specification:
    [positive_count / (positive_count + negative_count)], and 0 when
    the denominator is 0. *)
Definition positive_fraction (feedback : list string) : Q :=
  if positive_count feedback + negative_count feedback =? 0 then 0%Q
  else (inject_Z (positive_count feedback)
        / inject_Z (positive_count feedback + negative_count feedback))%Q.

(** No entry of [feedback] contains a tracked keyword. *)
Definition no_tracked_keyword (feedback : list string) : Prop :=
  forall word s,
    word ∈ (positive_keywords ++ negative_keywords)%list -> s ∈ feedback ->
    str_contains_nocase word s = false.

End Fractions.

(** The rational a finite float stands for. *)
Definition float_value (x : float) : option Q :=
  match Prim2SF x with
  | S754_zero _ => Some 0%Q
  | S754_finite s m e =>
      let magnitude :=
        if e <? 0 then Qmake (Zpos m) (Z.to_pos (2 ^ (- e)))
        else inject_Z (Zpos m * 2 ^ e) in
      Some (if s then - magnitude else magnitude)%Q
  | S754_infinity _ | S754_nan => None
  end.

(** The values a channel of an RGB pixel takes. *)
Definition channels : list Z := seqZ 0 256.

(** [k <= x < k + 1] for the whole number [k], compared as floats. *)
Definition lies_in_unit (k : int) (x : float) : bool :=
  (PrimFloat.of_uint63 k <=? x)%float
  && (x <? PrimFloat.of_uint63 (k + 1)%uint63)%float.

(** The float of the whole number [k] is [k] itself, on 53 bits. *)
Definition whole_float (k : Z) : bool :=
  match Prim2SF (PrimFloat.of_uint63 (Uint63.of_Z k)) with
  | S754_zero false => k =? 0
  | S754_finite false m e =>
      (0 <? k) && (e =? Z.log2 k - 52) && (Zpos m =? k * 2 ^ (52 - Z.log2 k))
  | _ => false
  end.

(** The channel in the words of the claim, the weights in
    thousandths and the arithmetic exact:
    [min(255, floor((m1 r + m2 g + m3 b) / 1000))]. *)
Definition sepia_formula (m1 m2 m3 r g b : Z) : Z :=
  Z.min 255 ((m1 * r + m2 * g + m3 * b) / 1000).

Definition sepia_formula_pixel (p : Z * Z * Z) : Z * Z * Z :=
  let '(r, g, b) := p in
  (sepia_formula 393 769 189 r g b,
   sepia_formula 349 686 168 r g b,
   sepia_formula 272 534 131 r g b).

(** [t] is the claim's channel, or one below it where the exact
    weighted sum is a whole number. *)
Definition near_channel (m1 m2 m3 r g b t : Z) : Prop :=
  0 <= t <= 255
  /\ sepia_formula m1 m2 m3 r g b - 1 <= t <= sepia_formula m1 m2 m3 r g b
  /\ ((m1 * r + m2 * g + m3 * b) mod 1000 <> 0 ->
      t = sepia_formula m1 m2 m3 r g b).

(** The float [x] lies in the unit interval that starts at the whole
    part of [e / 1000], or in the one before it when [e] is a multiple
    of 1000. *)
Definition near_formula (x : float) (e : int) : bool :=
  let q := (e / 1000)%uint63 in
  lies_in_unit q x
  || ((e mod 1000 =? 0)%uint63 && (0 <? q)%uint63
      && lies_in_unit (q - 1)%uint63 x).

(** [near_formula] for the weighted sum of every pixel against its
    exact sum in thousandths; the products are shared between the
    pixels that use them. *)
Definition all_near_formula (c1 c2 c3 : float) (m1 m2 m3 : Z) : bool :=
  let blues :=
    map (fun b => ((c3 * float_of_Z b)%float, Uint63.of_Z (m3 * b))) channels in
  let greens :=
    map (fun g => ((c2 * float_of_Z g)%float, Uint63.of_Z (m2 * g))) channels in
  forallb (fun r =>
    let x := (c1 * float_of_Z r)%float in
    let ex := Uint63.of_Z (m1 * r) in
    forallb (fun y =>
      let s := (x + fst y)%float in
      let es := (ex + snd y)%uint63 in
      forallb (fun z => near_formula (s + fst z)%float (es + snd z)%uint63)
              blues) greens)
    channels.

Definition is_upper (c : ascii) : bool :=
  let n := nat_of_ascii c in ((65 <=? n) && (n <=? 90))%nat.

Definition is_lower_alpha (c : ascii) : bool :=
  let n := nat_of_ascii c in ((97 <=? n) && (n <=? 122))%nat.

(** The words the chart counts: the matches in the case-folded text
    that are not stop words. *)
Definition tokens (combined_feedback : string) : list string :=
  List.filter (fun word => negb (in_list word stopwords))
              (findall_words (lower combined_feedback)).

(** How often [w] occurs in [l], and where it occurs first. *)
Fixpoint occurrences (w : string) (l : list string) : nat :=
  match l with
  | [] => 0
  | x :: l' => (if String.eqb w x then 1 else 0) + occurrences w l'
  end.

Fixpoint first_occurrence (w : string) (l : list string) : nat :=
  match l with
  | [] => 0
  | x :: l' => if String.eqb w x then 0 else S (first_occurrence w l')
  end.

(** [c[w]], which is 0 for a missing key. *)
Fixpoint counted (w : string) (c : list (string * nat)) : nat :=
  match c with
  | [] => 0
  | (w', n) :: c' => if String.eqb w w' then n else counted w c'
  end.

(** [x] comes before [y] in the chart: it is more frequent, or as
    frequent and met earlier in the text. *)
Definition ranks_before (words : list string) (x y : string * nat) : Prop :=
  (snd y < snd x)%nat
  \/ (snd x = snd y
      /\ (first_occurrence (fst x) words < first_occurrence (fst y) words)%nat).

(** The extractor in the words of the specification, for a number [K]
    of words chosen by the caller. *)
Definition top_words (K : nat) (combined_feedback : string)
  : list (string * nat) :=
  most_common K (Counter (tokens combined_feedback)).

(** Sixteen different words, none of them a stop word. *)
Definition sixteen_words : string :=
  "alpha bravo charlie delta echo foxtrot golf hotel india juliet kilo lima mike november oscar papa".

(** The number a string of decimal digits denotes. *)
Definition digits_value (s : string) : option N :=
  N.of_uint <$> NilEmpty.uint_of_string s.

(** The identifiers [P001], [P002], ... of [count] participants. *)
Definition expected_ids (count : Z) : list string :=
  (fun i => "P" +:+ format_03d i) <$> seqZ 1 count.

(** ** Further vocabulary for the generator *)

(** The templates a sentiment label selects. *)
Definition feedback_pool (sentiment : string) : list string :=
  if String.eqb sentiment "positive" then positive_feedback
  else if String.eqb sentiment "neutral" then neutral_feedback
  else negative_feedback.

(** The feedback of a row: a template of the pool instantiated with the
    row's domain, followed, when the domain has keywords, by the sentence
    naming one of them. *)
Definition feedback_shape (sentiment : string) (r : row) : Prop :=
  exists template,
    template ∈ feedback_pool sentiment
    /\ match domain_keywords !! Domain r with
       | Some keywords =>
           exists keyword,
             keyword ∈ keywords
             /\ Feedback r
                = format_domain template (Domain r) +:+ " The " +:+ keyword
                  +:+ " component was particularly interesting."
       | None => Feedback r = format_domain template (Domain r)
       end.

(** The personal fields of a row. *)
Definition personal_fields (r : row) : Prop :=
  (exists first last,
      first ∈ first_names /\ last ∈ last_names
      /\ Name r = first +:+ " " +:+ last)
  /\ 18 <= Age r <= 35
  /\ Gender r ∈ ["Male"; "Female"; "Other"]
  /\ College r ∈ colleges
  /\ (exists tenths : Z,
         40 <= tenths <= 100
         /\ Time_Spent r = (inject_Z tenths / inject_Z 10)%Q).

(** The widgets of a first visit with the page's defaults, the button
    pressed. *)
Definition default_click : widgets :=
  {| num_participants_slider := 350;
     domains_multiselect := default_domains;
     states_multiselect := default_states;
     seed_input := 42;
     generate_clicked := true;
     uploaded_file := None |}.

(** ** The rest of [domain_feedback_analysis] *)

(** [data[data['Domain'] == domain]] *)
Definition domain_data (data : table) (domain : string) : table :=
  List.filter (fun r => String.eqb (Domain r) domain) data.

(** [Series.str.cat(sep=' ')] *)
Fixpoint str_cat (l : list string) : string :=
  match l with
  | [] => EmptyString
  | s :: rest =>
      match rest with
      | [] => s
      | _ => s +:+ " " +:+ str_cat rest
      end
  end.

(** [Series.mean()] of integers: the sum, converted to binary64, over
    the count; the NaN of [0 / 0] for an empty series. *)
Definition series_mean (values : list Z) : float :=
  let total := fold_left Z.add values 0 in
  let count := Z.of_nat (length values) in
  (float_of_Z total / float_of_Z count)%float.

(** [WordCloud(colormap=..., max_words=..., ...).generate(text)] lays
    the words of the text out in an image.  It belongs to the wordcloud
    library and raises an exception when it finds nothing to draw.  It
    is taken as an interface: the image is opaque, and which texts are
    refused is the library's matter. *)
Class WordCloud := {
  wordcloud : Type;
  wordcloud_generate : string -> Z -> string -> result wordcloud
}.

(** The figures of the statistics box and of the gauge. *)
Record feedback_statistics := Statistics {
  stat_participants : Z;
  stat_avg_feedback_length : float;
  stat_positive_percent : number;
  stat_negative_percent : number
}.

Section Analysis.
Context {P : StrContains} {W : WordCloud}.

(** What the function puts on the page: the warning, or the word cloud
    with the figures. *)
Inductive analysis :=
  | st_warning (text : string)
  | st_statistics (cloud : wordcloud) (s : feedback_statistics).

Definition domain_feedback_analysis (data : table) (domain : string)
    (max_words : Z) (color_theme : string) : result analysis :=
  let domain_data := domain_data data domain in
  match domain_data with
  | [] => Ok (st_warning ("No feedback data available for " +:+ domain +:+ "."))
  | _ =>
      let feedback := Feedback <$> domain_data in
      let all_feedback := str_cat feedback in
      result_bind (wordcloud_generate color_theme max_words all_feedback)
        (fun cloud =>
      let num_participants := Z.of_nat (length domain_data) in
      let avg_feedback_length :=
        series_mean ((fun s => Z.of_nat (String.length s)) <$> feedback) in
      let positive_percent := positive_percent feedback in
      let negative_percent := negative_percent feedback in
      Ok (st_statistics cloud
            {| stat_participants := num_participants;
               stat_avg_feedback_length := avg_feedback_length;
               stat_positive_percent := positive_percent;
               stat_negative_percent := negative_percent |}))
  end.

End Analysis.

(** ** The rest of [feedback_analysis] *)

(** [data[data['Domain'].isin(selected)]['Feedback'].str.cat(sep=' ')] *)
Definition combined_feedback (data : table) (selected : list string) : string :=
  str_cat (Feedback <$> List.filter (fun r => in_list (Domain r) selected) data).

(** ** The filters of [analytics_dashboard] *)

(** [Series.unique().tolist()]: the distinct values, in the order in
    which they first appear. *)
Fixpoint unique {A} `{EqDecision A} (l : list A) : list A :=
  match l with
  | [] => []
  | x :: l' => x :: filter (fun y => y <> x) (unique l')
  end.

(** [all[:5] if len(all) > 5 else all] *)
Definition first_five {A} (all : list A) : list A :=
  if (5 <? length all)%nat then take 5 all else all.

(** [Series.isin(values)] on one entry. *)
Definition isin {A} `{EqDecision A} (x : A) (values : list A) : bool :=
  bool_decide (x ∈ values).

(** The four multiselects of the sidebar. *)
Record filters := Filters {
  selected_domains : list string;
  selected_states : list string;
  selected_colleges : list string;
  selected_days : list Z
}.

(** Their defaults: every domain, the first five states, the first five
    colleges, every day in increasing order. *)
Definition default_filters (data : table) : filters :=
  {| selected_domains := unique (Domain <$> data);
     selected_states := first_five (unique (State <$> data));
     selected_colleges := first_five (unique (College <$> data));
     selected_days := merge_sort Z.le (unique (Day <$> data)) |}.

Definition filtered_data (data : table) (f : filters) : table :=
  List.filter
    (fun r => isin (Domain r) (selected_domains f)
              && isin (State r) (selected_states f)
              && isin (College r) (selected_colleges f)
              && isin (Day r) (selected_days f))
    data.

(** What the dashboard shows: the warning and nothing else, or the
    charts of the rows kept, under a summary of four counts. *)
Inductive dashboard :=
  | dashboard_warning (text : string)
  | dashboard_charts (shown : table) (summary : Z * Z * Z * Z * Z).

Definition analytics_dashboard (data : table) (f : filters) : dashboard :=
  let filtered_data := filtered_data data f in
  match filtered_data with
  | [] =>
      dashboard_warning
        "No data available with the selected filters. Please adjust your selection."
  | _ =>
      dashboard_charts filtered_data
        (Z.of_nat (length filtered_data),
         Z.of_nat (length (selected_domains f)),
         Z.of_nat (length (selected_states f)),
         Z.of_nat (length (selected_colleges f)),
         Z.of_nat (length (selected_days f)))
  end.

(** ** [show_image_gallery] *)

Definition domain_images : gmap string (list string) :=
  list_to_map [
    ("Web Development",
     ["https://img.freepik.com/free-photo/programming-background-with-person-working-with-codes-computer_23-2150010125.jpg?w=740&t=st=1714045118~exp=1714045718~hmac=0db297e2eaf71fe84aad5f0c6f4f8e95c6e4749e60edd02173bc1ba21da65eb0";
      "https://img.freepik.com/free-photo/close-up-image-programer-working-his-desk-office_1098-18707.jpg?w=740&t=st=1714045140~exp=1714045740~hmac=05be58ebcc20d07e4f741237320b44e8541681aa7bbde0b10c3a5985ec35ae8c";
      "https://img.freepik.com/free-photo/rear-view-programmer-working-all-night-long_1098-18697.jpg?w=740&t=st=1714045168~exp=1714045768~hmac=72de24f9e5705399a1d6fb5f3d1ecc166be0149fc5a252e5c2fdbad8b2c98cd9"]);
    ("Mobile App Development",
     ["https://img.freepik.com/free-vector/app-development-banner_33099-1720.jpg";
      "https://media.istockphoto.com/id/1174690086/photo/software-developer-freelancer-working-at-home.jpg?s=612x612&w=0&k=20&c=loFqul06ggwtkwqSmzZnYfA72Vk7nFQOvDSzAN6YbtQ=";
      "https://lh4.googleusercontent.com/-z2_WPcZpaj3lKM_KpyyklucmrEi7SGyo8RvBJuF2GVYsTMGCRVP7-8_0bQ8_-40PN-P9K8ugGU1T2r-a92qjkndpp1J84I3s2Fyc0a-f0L-dp4V-YpfzOdEuOvDHXUN79vpFUM-q7PI7B7i9pW1CEw"]);
    ("AI/ML",
     ["https://eu-images.contentstack.com/v3/assets/blt8eb3cdfc1fce5194/bltf3fad4d36b8893e7/662109ea5dcbd66010a70c19/2CND889.jpg?width=1280&auto=webp&quality=95&format=jpg&disable=upscale";
      "https://www.igtsolutions.com/wp-content/uploads/2021/10/ai-featured-img.jpg";
      "https://www.supermomos.com/_next/image?url=https%3A%2F%2Fsupermomos-app-resources-us.s3.amazonaws.com%2Fpublic%2Fsocial_banners%2F1ab33d01-3c39-434a-be4e-3cf85fd8f4ce.png&w=1920&q=75"]);
    ("Blockchain",
     ["https://fintechweekly.s3.amazonaws.com/article/191/shutterstock_1016393917.jpg";
      "https://bernardmarr.com/wp-content/uploads/2023/05/The-5-Biggest-Problems-With-Blockchain-Technology-Everyone-Must-Know-About-1.jpg";
      "https://www.accesswire.com/imagelibrary/42fbae3c-c412-43bf-a1e5-15073781f7b1/927945/Future_Blockchain_Summit_beauty_shot.jpg"]);
    ("IoT",
     ["https://online.keele.ac.uk/wp-content/uploads/2024/05/IoT.jpg";
      "https://studyonline.unsw.edu.au/sites/default/files/field/image/KP%20AUS%20UNSW%20Q2%202022%20Skyscraper%20%233%20What%20is%20the%20Internet%20of%20Things%20%28IoT%29-01%201000X667.jpg";
      "https://blog.raxsuite.com/wp-content/uploads/2023/07/IoT-Conference-2023-01.png"])
  ].

Definition day_idx : gmap string nat :=
  list_to_map [("Day 1", 0%nat); ("Day 2", 1%nat); ("Day 3", 2%nat)].

(** The two ways a subscript of the gallery can fail. *)
Inductive lookup_error :=
  | KeyError (key : string)
  | ListIndexError.

(** One [st.image] call: the column it goes to, its address and its
    caption. *)
Record gallery_image := GalleryImage {
  image_column : nat;
  image_url : string;
  image_caption : string
}.

(** [for i, domain in enumerate(domains)], from position [i] on. *)
Fixpoint gallery_images (day : string) (i : nat) (domains : list string)
  : lookup_error + list gallery_image :=
  match domains with
  | [] => inr []
  | domain :: rest =>
      match domain_images !! domain with
      | Some urls =>
          match day_idx !! day with
          | None => inl (KeyError day)
          | Some idx =>
              match urls !! idx with
              | None => inl ListIndexError
              | Some img_url =>
                  let col_idx := (i mod 3)%nat in
                  match gallery_images day (S i) rest with
                  | inl e => inl e
                  | inr images =>
                      inr (GalleryImage col_idx img_url
                             (domain +:+ " - " +:+ day) :: images)
                  end
              end
          end
      | None => gallery_images day (S i) rest
      end
  end.

(** What the gallery shows: the warning, or a heading and the images. *)
Inductive gallery :=
  | gallery_warning (text : string)
  | gallery_shown (heading : string) (images : list gallery_image).

Definition show_image_gallery (day : string) (domains : list string)
  : lookup_error + gallery :=
  match domains with
  | [] =>
      inr (gallery_warning
             "Please select at least one domain to display images.")
  | _ =>
      match gallery_images day 0 domains with
      | inl e => inl e
      | inr images => inr (gallery_shown ("Images from " +:+ day) images)
      end
  end.

(** ** The pixel loops and the text overlay of [image_processing] *)

(** An RGB image: its size and the pixel at each coordinate. *)
Record image := Image {
  image_width : Z;
  image_height : Z;
  image_pixels : gmap (Z * Z) (Z * Z * Z)
}.

Definition in_image (im : image) (xy : Z * Z) : bool :=
  (0 <=? fst xy) && (fst xy <? image_width im)
  && (0 <=? snd xy) && (snd xy <? image_height im).

(** [image.getpixel(xy)] and [pixels[xy] = value], for the coordinates
    the loops use; outside the image both raise [IndexError]. *)
Definition getpixel (im : image) (xy : Z * Z) : result (Z * Z * Z) :=
  if in_image im xy
  then match image_pixels im !! xy with
       | Some p => Ok p
       | None => Raise IndexError
       end
  else Raise IndexError.

Definition putpixel (im : image) (xy : Z * Z) (value : Z * Z * Z)
  : result image :=
  if in_image im xy
  then Ok (Image (image_width im) (image_height im)
                 (<[xy := value]> (image_pixels im)))
  else Raise IndexError.

(** [for i in range(...)] over a state that each iteration updates. *)
Fixpoint for_state {S} (indices : list Z) (body : Z -> S -> result S) (s : S)
  : result S :=
  match indices with
  | [] => Ok s
  | i :: rest => result_bind (body i s) (for_state rest body)
  end.

(** The body of the inner loop: read the pixel, compute its sepia
    value, write it back into the same image. *)
Definition sepia_step (px py : Z) (processed_image : image) : result image :=
  result_bind (getpixel processed_image (px, py)) (fun p =>
  result_bind (sepia_pixel p) (fun new =>
  putpixel processed_image (px, py) new)).

(** The branch [filter_option == "Sepia"]. *)
Definition sepia_filter (processed_image : image) : result image :=
  let width := image_width processed_image in
  let height := image_height processed_image in
  for_state (seqZ 0 height)
    (fun py im => for_state (seqZ 0 width) (fun px im => sepia_step px py im) im)
    processed_image.

(** Every pixel of the image is present with channels in 0..255. *)
Definition rgb (p : Z * Z * Z) : Prop :=
  0 <= fst (fst p) <= 255 /\ 0 <= snd (fst p) <= 255 /\ 0 <= snd p <= 255.

Definition well_formed (im : image) : Prop :=
  forall xy, in_image im xy = true ->
             exists p, image_pixels im !! xy = Some p /\ rgb p.

(** [after] is [before] with the pixels at [cells] replaced by their
    sepia values and every other pixel untouched. *)
Definition sepia_at (cells : list (Z * Z)) (before after : image) : Prop :=
  image_width after = image_width before
  /\ image_height after = image_height before
  /\ (forall xy, xy ∈ cells ->
        exists p new,
          image_pixels before !! xy = Some p
          /\ sepia_pixel p = Ok new /\ rgb new
          /\ image_pixels after !! xy = Some new)
  /\ (forall xy, xy ∉ cells ->
        image_pixels after !! xy = image_pixels before !! xy).

(** The position of the overlay text and the offset of its shadow. *)
Definition text_origin (text_position : string)
    (width height text_width text_height : Z) : Z * Z :=
  if String.eqb text_position "Top"
  then ((width - text_width) / 2, 20)
  else if String.eqb text_position "Center"
  then ((width - text_width) / 2, (height - text_height) / 2)
  else ((width - text_width) / 2, height - text_height - 20).

Definition shadow_offset (text_size : Z) : Z := Z.max 1 (text_size / 15).

(** * Properties *)

(** ** Reasoning about computations *)

Section Computations.
Context {G : PRNG}.

Lemma bind_Ok {A B} (m : M A) (k : A -> M B) w b w' :
  bind m k w = (Ok b, w') ->
  exists a w1, m w = (Ok a, w1) /\ k a w1 = (Ok b, w').
Proof.
  unfold bind. destruct (m w) as [[a|e] w1]; [eauto | discriminate].
Qed.

Lemma returns_ret {A} (a : A) (post : A -> Prop) w :
  post a -> returns (ret a) post w.
Proof. intros H. exists a, w. auto. Qed.

Lemma returns_bind {A B} (m : M A) (k : A -> M B) (mid : A -> Prop)
    (post : B -> Prop) w :
  returns m mid w ->
  (forall a w1, mid a -> returns (k a) post w1) ->
  returns (bind m k) post w.
Proof.
  intros (a & w1 & Em & Ha) Hk.
  destruct (Hk a w1 Ha) as (b & w2 & Ek & Hb).
  exists b, w2. unfold bind. rewrite Em. auto.
Qed.

Lemma returns_weaken {A} (m : M A) (p q : A -> Prop) w :
  returns m p w -> (forall a, p a -> q a) -> returns m q w.
Proof. intros (a & w' & E & H) Hpq. exists a, w'. auto. Qed.

Lemma returns_Ok {A} (m : M A) (post : A -> Prop) w a w' :
  returns m post w -> m w = (Ok a, w') -> post a.
Proof. intros (a0 & w0 & E & H) E'. congruence. Qed.

Lemma raises_bind_now {A B} (m : M A) (k : A -> M B) e w :
  raises m e w -> raises (bind m k) e w.
Proof. intros (w' & E). exists w'. unfold bind. now rewrite E. Qed.

Lemma raises_bind_later {A B} (m : M A) (k : A -> M B) (mid : A -> Prop)
    e w :
  returns m mid w ->
  (forall a w1, mid a -> raises (k a) e w1) ->
  raises (bind m k) e w.
Proof.
  intros (a & w1 & Em & Ha) Hk.
  destruct (Hk a w1 Ha) as (w2 & Ek).
  exists w2. unfold bind. now rewrite Em.
Qed.

(** *** The [random] module *)

Lemma random_random_spec w : returns random_random unit_interval w.
Proof.
  unfold returns, random_random.
  pose proof (rng_random_range (py_random w)) as H.
  destruct (rng_random (py_random w)) as [u g]. eexists _, _. eauto.
Qed.

Lemma randbelow_spec n w :
  0 < n -> returns (randbelow n) (fun k => 0 <= k < n) w.
Proof.
  intros Hn. unfold returns, randbelow.
  pose proof (rng_randbelow_range n (py_random w) Hn) as H.
  destruct (rng_randbelow n (py_random w)) as [k g]. eexists _, _. eauto.
Qed.

Lemma random_choice_spec {A} (seq : list A) w :
  seq <> [] -> returns (random_choice seq) (fun x => x ∈ seq) w.
Proof.
  intros Hne. unfold random_choice.
  destruct seq as [|x0 seq']; [congruence|].
  remember (x0 :: seq') as seq eqn:Eseq.
  assert (0 < length seq)%nat by (subst seq; simpl; lia).
  eapply returns_bind.
  - apply randbelow_spec. lia.
  - intros k w1 Hk.
    destruct (seq !! Z.to_nat k) as [x|] eqn:E.
    + apply returns_ret. eapply list_elem_of_lookup_2; eauto.
    + apply lookup_ge_None in E. cbv beta in Hk. exfalso. lia.
Qed.

Lemma random_choice_empty {A} w : raises (random_choice (@nil A)) IndexError w.
Proof. exists w. reflexivity. Qed.

Lemma random_randint_spec a b w :
  a <= b -> returns (random_randint a b) (fun x => a <= x <= b) w.
Proof.
  intros Hab. unfold random_randint.
  destruct (Z.ltb_spec 0 (b + 1 - a)); [|lia].
  eapply returns_bind; [apply randbelow_spec; lia|].
  intros k w1 Hk. apply returns_ret. cbv beta in Hk. lia.
Qed.

Lemma random_uniform_spec a b w :
  returns (random_uniform a b)
    (fun x => exists u, unit_interval u /\ x = (a + (b - a) * u)%Q) w.
Proof.
  unfold random_uniform.
  eapply returns_bind; [apply random_random_spec|].
  intros u w1 Hu. apply returns_ret. eauto.
Qed.

Lemma bisect_le a x hi : (bisect a x hi <= hi)%nat.
Proof.
  revert a. induction hi as [|hi IH]; intros [|y a]; simpl; try lia.
  destruct (Qle_bool y x); [|lia]. specialize (IH a). lia.
Qed.

Lemma random_choices_spec {A} (population : list A) weights total w :
  length (accumulate weights) = length population ->
  last (accumulate weights) = Some total ->
  Qle_bool total 0 = false ->
  returns (random_choices population weights)
          (fun l => exists x, l = [x] /\ x ∈ population) w.
Proof.
  intros Hlen Hlast Htot. unfold random_choices.
  rewrite Hlen, Nat.eqb_refl, Hlast, Htot. simpl.
  eapply returns_bind; [apply random_random_spec|].
  intros u w1 _.
  pose proof (bisect_le (accumulate weights) (u * total)%Q
                        (length population - 1)) as Hle.
  destruct (population !! _) as [x|] eqn:E.
  - apply returns_ret. exists x. split; [reflexivity|].
    eapply list_elem_of_lookup_2; eauto.
  - apply lookup_ge_None in E.
    assert (length population <> 0%nat); [|exfalso; lia].
    intros E0. rewrite E0 in Hlen.
    destruct (accumulate weights); discriminate.
Qed.

Lemma subscript_spec {A} (l : list A) i x w :
  l !! i = Some x -> returns (subscript l i) (fun y => y = x) w.
Proof. intros E. unfold subscript. rewrite E. now apply returns_ret. Qed.

(** *** Dates *)

Lemma start_date_value : datetime 2023 3 15 0 0 0 = Ok event_epoch.
Proof. reflexivity. Qed.

Lemma end_date_value day :
  1 <= day <= 3 ->
  datetime 2023 3 (15 + day - 1) 23 59 59
  = Ok (event_epoch + (day - 1) * us_per_day + 86399 * us_per_second).
Proof.
  intros H. assert (day = 1 \/ day = 2 \/ day = 3) as [->|[->| ->]] by lia;
    reflexivity.
Qed.

Lemma delta_days day :
  1 <= day <= 3 ->
  timedelta_days (event_epoch + (day - 1) * us_per_day
                  + 86399 * us_per_second - event_epoch) = day - 1.
Proof.
  intros H. assert (day = 1 \/ day = 2 \/ day = 3) as [->|[->| ->]] by lia;
    reflexivity.
Qed.

Lemma random_date_time_spec start_date end_date w :
  returns (random_date_time start_date end_date)
    (fun t => exists u1 u2, unit_interval u1 /\ unit_interval u2
       /\ t = start_date
              + timedelta
                  (u1 * inject_Z (timedelta_days (end_date - start_date)))
                  (u2 * inject_Z 86400)) w.
Proof.
  unfold random_date_time.
  eapply returns_bind; [apply random_random_spec|]. intros u1 w1 H1.
  eapply returns_bind; [apply random_random_spec|]. intros u2 w2 H2.
  apply returns_ret. eauto 6.
Qed.

Lemma lift_spec {A} (r : result A) a w :
  r = Ok a -> returns (lift r) (fun x => x = a) w.
Proof. intros ->. exists a, w. auto. Qed.

(** *** The dictionary of keywords *)

Lemma domain_keywords_nonempty domain keywords :
  domain_keywords !! domain = Some keywords -> keywords <> [].
Proof.
  intros H. apply elem_of_list_to_map_2 in H.
  repeat (apply elem_of_cons in H as [H|H]; [inversion H; discriminate|]).
  now apply elem_of_nil in H.
Qed.

(** *** One participant *)

Lemma participant_returns domains states i w :
  domains <> [] -> states <> [] ->
  returns (participant domains states i) (participant_post domains states i) w.
Proof.
  intros Hd Hs. unfold participant.
  eapply returns_bind; [apply random_choice_spec; discriminate|].
  intros first w1 _.
  eapply returns_bind; [apply random_choice_spec; discriminate|].
  intros last w2 _.
  eapply returns_bind; [apply (random_randint_spec 18 35); lia|].
  intros age w3 _.
  eapply returns_bind; [apply random_choice_spec; discriminate|].
  intros gender w4 _.
  eapply returns_bind; [apply random_choice_spec; discriminate|].
  intros college w5 _.
  eapply returns_bind; [apply random_choice_spec; assumption|].
  intros state w6 Hstate.
  eapply returns_bind; [apply random_choice_spec; assumption|].
  intros domain w7 Hdomain.
  eapply returns_bind; [apply (random_randint_spec 1 3); lia|].
  intros day w8 Hday. cbv beta in Hday.
  eapply returns_bind; [apply lift_spec, start_date_value|].
  intros start_date w9 ->.
  eapply returns_bind; [apply lift_spec, end_date_value, Hday|].
  intros end_date w10 ->.
  eapply returns_bind; [apply random_date_time_spec|].
  intros registration_time w11 (u1 & u2 & Hu1 & Hu2 & Ht).
  rewrite delta_days in Ht by assumption.
  eapply returns_bind; [apply random_uniform_spec|].
  intros hours w12 _.
  eapply returns_bind.
  { eapply random_choices_spec; reflexivity. }
  intros drawn w13 (sentiment & -> & Hsent).
  eapply returns_bind; [now apply subscript_spec|].
  intros ? w14 ->.
  eapply returns_bind with (mid := fun _ => True).
  { destruct (String.eqb sentiment "positive");
      [|destruct (String.eqb sentiment "neutral")];
      (eapply returns_weaken;
       [apply random_choice_spec; discriminate|auto]). }
  intros template w15 _.
  eapply returns_bind with (mid := fun _ => True).
  { destruct (domain_keywords !! domain) as [keywords|] eqn:Ek.
    - eapply returns_bind.
      + apply random_choice_spec.
        eapply domain_keywords_nonempty, Ek.
      + intros keyword w16 _. now apply returns_ret.
    - now apply returns_ret. }
  intros feedback w17 _.
  destruct (String.eqb sentiment "negative") eqn:Eneg; simpl negb; cbv iota.
  - destruct (random_randint_spec 30 85 w17) as (pc & w18 & E & Hpc); [lia|].
    exists (sentiment, Row ("P" +:+ format_03d i) (first +:+ " " +:+ last)
              age gender college state domain day registration_time
              (round1 hours) pc feedback), w18.
    split.
    + unfold bind. now rewrite E.
    + unfold participant_post. rewrite Eneg. simpl.
      repeat split; try assumption; try lia; eauto 8.
      now exists w17, w18.
  - destruct (random_randint_spec 60 100 w17) as (pc & w18 & E & Hpc); [lia|].
    exists (sentiment, Row ("P" +:+ format_03d i) (first +:+ " " +:+ last)
              age gender college state domain day registration_time
              (round1 hours) pc feedback), w18.
    split.
    + unfold bind. now rewrite E.
    + unfold participant_post. rewrite Eneg. simpl.
      repeat split; try assumption; try lia; eauto 8.
      now exists w17, w18.
Qed.

Lemma participant_Ok_nonempty domains states i w p w' :
  participant domains states i w = (Ok p, w') ->
  domains <> [] /\ states <> [].
Proof.
  intros H. unfold participant in H.
  do 5 (apply bind_Ok in H as (? & ? & _ & H)).
  apply bind_Ok in H as (state & ? & Hs & H).
  apply bind_Ok in H as (domain & ? & Hd & _).
  split; intros ->; discriminate.
Qed.

Lemma participant_Ok domains states i w p w' :
  participant domains states i w = (Ok p, w') ->
  participant_post domains states i p.
Proof.
  intros H. destruct (participant_Ok_nonempty _ _ _ _ _ _ H) as [Hd Hs].
  eapply returns_Ok; [apply participant_returns|]; eauto.
Qed.

(** *** The loop *)

Lemma for_each_Ok {A} (body : Z -> M A) (post : Z -> A -> Prop) indices :
  (forall i w x w', body i w = (Ok x, w') -> post i x) ->
  forall w xs w',
    for_each indices body w = (Ok xs, w') -> Forall2 post indices xs.
Proof.
  intros Hbody. induction indices as [|i rest IH]; intros w xs w' H; simpl in H.
  - injection H as <- _. constructor.
  - apply bind_Ok in H as (x & w1 & Hx & H).
    apply bind_Ok in H as (xs' & w2 & Hxs & H).
    injection H as <- _. constructor; eauto.
Qed.

Lemma for_each_returns {A} (body : Z -> M A) (post : Z -> A -> Prop) indices :
  (forall i w, i ∈ indices -> returns (body i) (post i) w) ->
  forall w, returns (for_each indices body) (Forall2 post indices) w.
Proof.
  induction indices as [|i rest IH]; intros Hbody w; simpl.
  - apply returns_ret. constructor.
  - eapply returns_bind; [apply Hbody; left|].
    intros x w1 Hx.
    eapply returns_bind.
    + apply IH. intros j w2 Hj. apply Hbody. now right.
    + intros xs w2 Hxs. apply returns_ret. now constructor.
Qed.

Lemma for_each_raises {A} (body : Z -> M A) i rest e w :
  raises (body i) e w -> raises (for_each (i :: rest) body) e w.
Proof. intros H. simpl. now apply raises_bind_now. Qed.

(** *** [generate_dataset] *)

(** The loop starts from generators that depend on the seed alone. *)
Lemma generate_dataset_unfold num_participants domains states seed w :
  generate_dataset num_participants domains states seed w
  = for_each (seqZ 1 num_participants)
      (fun i => bind (participant domains states i) (fun p => ret (snd p)))
      (World (rng_seed seed) (np_rng_seed seed)).
Proof. reflexivity. Qed.

Lemma generate_dataset_Ok n domains states seed w t w' :
  generate_dataset n domains states seed w = (Ok t, w') ->
  Forall2 (row_post domains states) (seqZ 1 n) t.
Proof.
  rewrite generate_dataset_unfold. apply for_each_Ok.
  intros i w1 r w2 H.
  apply bind_Ok in H as ([sentiment r'] & w3 & Hp & H).
  injection H as <- _. exists sentiment.
  eapply participant_Ok, Hp.
Qed.

Lemma generate_dataset_returns n domains states seed w :
  domains <> [] -> states <> [] ->
  returns (generate_dataset n domains states seed)
          (Forall2 (row_post domains states) (seqZ 1 n)) w.
Proof.
  intros Hd Hs. unfold returns. rewrite generate_dataset_unfold.
  apply for_each_returns. intros i w1 _.
  eapply returns_bind; [now apply participant_returns|].
  intros [sentiment r] w2 Hp. apply returns_ret. now exists sentiment.
Qed.

End Computations.

(** ** Identifiers *)

Lemma digits_value_str_of_N n : digits_value (str_of_N n) = Some n.
Proof.
  unfold digits_value, str_of_N. rewrite NilEmpty.usu. simpl.
  now rewrite DecimalN.Unsigned.of_to.
Qed.

Lemma digits_value_zfill width n :
  digits_value (zfill width (str_of_N n)) = Some n.
Proof.
  unfold zfill. generalize (width - String.length (str_of_N n))%nat as k.
  induction k as [|k IH]; simpl.
  - apply digits_value_str_of_N.
  - unfold digits_value in *. simpl.
    destruct (NilEmpty.uint_of_string (zeros k +:+ str_of_N n)); simpl in *;
      congruence.
Qed.

Lemma format_03d_inj i j :
  0 <= i -> 0 <= j -> format_03d i = format_03d j -> i = j.
Proof.
  intros Hi Hj. unfold format_03d.
  destruct (Z.ltb_spec i 0); [lia|]. destruct (Z.ltb_spec j 0); [lia|].
  intros E. apply (f_equal digits_value) in E.
  rewrite !digits_value_zfill in E. injection E as E. lia.
Qed.

Lemma expected_ids_NoDup count : NoDup (expected_ids count).
Proof.
  unfold expected_ids. apply NoDup_fmap_2_strong; [|apply NoDup_seqZ].
  intros i j Hi Hj E. apply elem_of_seqZ in Hi, Hj.
  injection E as E. apply format_03d_inj; [lia|lia|exact E].
Qed.

(** ** Rounding and the registration time *)

Lemma round_half_even_bounds (a b : Z) (q : Q) :
  (inject_Z a <= q)%Q -> (q <= inject_Z b)%Q ->
  a <= round_half_even q <= b.
Proof.
  intros Ha Hb. unfold round_half_even.
  pose proof (Qfloor_le q) as Hf.
  assert (a <= Qfloor q) as Hlo.
  { rewrite <- (Qfloor_Z a). now apply Qfloor_resp_le. }
  assert (Qfloor q <= b) as Hhi.
  { rewrite <- (Qfloor_Z b). now apply Qfloor_resp_le. }
  destruct (Qcompare_spec (q - inject_Z (Qfloor q)) (1 # 2)) as [E|E|E];
    [|lia|].
  - assert (inject_Z (Qfloor q) < inject_Z b)%Q as Hlt by lra.
    rewrite <- Zlt_Qlt in Hlt. destruct (Z.even (Qfloor q)); lia.
  - assert (inject_Z (Qfloor q) < inject_Z b)%Q as Hlt by lra.
    rewrite <- Zlt_Qlt in Hlt. lia.
Qed.

Ltac eval_numerators :=
  repeat match goal with
         | |- context [(?z # 1)%Q] =>
             let z' := eval vm_compute in z in
             progress change (z # 1)%Q with (z' # 1)%Q
         end.

Lemma timedelta_bounds u1 u2 day :
  unit_interval u1 -> unit_interval u2 -> 1 <= day <= 3 ->
  0 <= timedelta (u1 * inject_Z (day - 1)) (u2 * inject_Z 86400)
    <= day * us_per_day.
Proof.
  intros [H1 H1'] [H2 H2'] Hday. unfold timedelta.
  apply round_half_even_bounds;
    assert (day = 1 \/ day = 2 \/ day = 3) as [->|[->| ->]] by lia;
    unfold us_per_day, us_per_second, inject_Z; eval_numerators; lra.
Qed.

Section Rows.
Context {G : PRNG}.

Lemma row_post_from_event_start domains states i r :
  row_post domains states i r -> from_event_start r = true.
Proof.
  intros (sentiment & _ & _ & _ & Hday & (u1 & u2 & H1 & H2 & Ht) & _).
  unfold from_event_start. rewrite start_date_value.
  pose proof (timedelta_bounds u1 u2 (Day r) H1 H2 Hday).
  apply Z.leb_le. lia.
Qed.

End Rows.

(** ** The generated table *)

Section Table.
Context {G : PRNG}.

Lemma rows_Forall (post : row -> Prop) domains states indices t :
  (forall i r, row_post domains states i r -> post r) ->
  Forall2 (row_post domains states) indices t -> Forall post t.
Proof. intros Hpost H. induction H; constructor; eauto. Qed.

Lemma rows_ids domains states indices t :
  Forall2 (row_post domains states) indices t ->
  Participant_ID <$> t = (fun i => "P" +:+ format_03d i) <$> indices.
Proof.
  intros H. induction H as [|i r indices t (s & Hid & _) _ IH];
    [reflexivity|].
  rewrite !fmap_cons. now rewrite Hid, IH.
Qed.

Lemma participant_raises domains states i w :
  domains = [] \/ states = [] ->
  raises (participant domains states i) IndexError w.
Proof.
  intros Hempty. unfold participant.
  eapply raises_bind_later; [apply random_choice_spec; discriminate|].
  intros first w1 _.
  eapply raises_bind_later; [apply random_choice_spec; discriminate|].
  intros last w2 _.
  eapply raises_bind_later; [apply (random_randint_spec 18 35); lia|].
  intros age w3 _.
  eapply raises_bind_later; [apply random_choice_spec; discriminate|].
  intros gender w4 _.
  eapply raises_bind_later; [apply random_choice_spec; discriminate|].
  intros college w5 _.
  destruct states as [|s0 states'].
  { apply raises_bind_now, random_choice_empty. }
  eapply raises_bind_later; [apply random_choice_spec; discriminate|].
  intros state w6 _.
  destruct Hempty as [->|?]; [|discriminate].
  apply raises_bind_now, random_choice_empty.
Qed.

(** C2 -- Determinism.  For fixed count, domains, states and seed the
    generator builds the same table whatever the state the two global
    generators were left in by earlier work: two invocations, started
    from any two states [w1] and [w2], give the same outcome (the same
    table, field for field, and the same final generators). *)
Theorem generate_dataset_deterministic n domains states seed (w1 w2 : world) :
  generate_dataset n domains states seed w1
  = generate_dataset n domains states seed w2.
Proof. now rewrite !generate_dataset_unfold. Qed.

(** C3 -- Count and identifiers.  For every count of at least one, a
    table the generator returns has exactly [count] rows, its
    [Participant_ID] column is [P001], [P002], ... up to the count in
    that order (["P"] followed by the index zero-padded to three
    digits), and no identifier occurs twice; with non-empty domains and
    states the generator does return a table. *)
Theorem generate_dataset_count_ids count domains states seed w :
  1 <= count ->
  (forall t w',
      generate_dataset count domains states seed w = (Ok t, w') ->
      Z.of_nat (length t) = count
      /\ Participant_ID <$> t = expected_ids count
      /\ NoDup (Participant_ID <$> t))
  /\ (domains <> [] -> states <> [] ->
      exists t w', generate_dataset count domains states seed w = (Ok t, w')).
Proof.
  intros Hcount. split.
  - intros t w' H. apply generate_dataset_Ok in H.
    pose proof (rows_ids _ _ _ _ H) as Hids.
    fold (expected_ids count) in Hids.
    split; [|split].
    + apply Forall2_length in H. rewrite length_seqZ in H. lia.
    + exact Hids.
    + rewrite Hids. apply expected_ids_NoDup.
  - intros Hd Hs.
    destruct (generate_dataset_returns count domains states seed w Hd Hs)
      as (t & w' & E & _).
    eauto.
Qed.

(** C4 -- Domain and state closure.  With non-empty domains and states
    the generator returns a table, and every row of it has its [Domain]
    among the domains passed in and its [State] among the states passed
    in. *)
Theorem generate_dataset_closure count domains states seed w :
  domains <> [] -> states <> [] ->
  returns (generate_dataset count domains states seed)
          (Forall (fun r => Domain r ∈ domains /\ State r ∈ states)) w.
Proof.
  intros Hd Hs. eapply returns_weaken.
  - now apply generate_dataset_returns.
  - intros t H. eapply rows_Forall; [|exact H].
    intros i r (s & _ & Hstate & Hdomain & _). auto.
Qed.

(** C6 -- Completion by sentiment.  In every iteration that completes,
    a negative sentiment makes [Project_Completion] a value drawn by
    [random.randint(30, 85)], hence between 30 and 85, and any other
    sentiment a value drawn by [random.randint(60, 100)], hence between
    60 and 100; so every row of a generated table has its
    [Project_Completion] between 30 and 100, and with non-empty domains
    and states such a table is returned. *)
Theorem project_completion_by_sentiment count domains states seed i w :
  (forall sentiment r w',
      participant domains states i w = (Ok (sentiment, r), w') ->
      (sentiment = "negative" ->
       drawn_by (random_randint 30 85) (Project_Completion r)
       /\ 30 <= Project_Completion r <= 85)
      /\ (sentiment <> "negative" ->
          drawn_by (random_randint 60 100) (Project_Completion r)
          /\ 60 <= Project_Completion r <= 100))
  /\ (forall t w',
         generate_dataset count domains states seed w = (Ok t, w') ->
         Forall (fun r => 30 <= Project_Completion r <= 100) t)
  /\ (domains <> [] -> states <> [] ->
      returns (generate_dataset count domains states seed)
              (Forall (fun r => 30 <= Project_Completion r <= 100)) w).
Proof.
  assert (forall j r, row_post domains states j r ->
                      30 <= Project_Completion r <= 100) as Hrow.
  { intros j r (s & _ & _ & _ & _ & _ & _ & Hpc).
    destruct (String.eqb s "negative"); lia. }
  split; [|split].
  - intros sentiment r w' H. apply participant_Ok in H.
    destruct H as (_ & _ & _ & _ & _ & _ & Hpc).
    destruct (String.eqb_spec sentiment "negative"); split; intros;
      (assumption || contradiction).
  - intros t w' H. apply generate_dataset_Ok in H.
    eapply rows_Forall; eauto.
  - intros Hd Hs. eapply returns_weaken.
    + now apply generate_dataset_returns.
    + intros t H. eapply rows_Forall; [exact Hrow|exact H].
Qed.

(** C1, as the code has it -- Registration window.  Every row of a
    generated table has its [Day] in 1..3 and its [Registration_Time]
    not before the start of the event, 2023-03-15 00:00:00: the window
    opens at the fixed start of the event for every day, not at the
    start of the row's own day.  With non-empty domains and states such
    a table is returned. *)
Theorem registration_time_from_event_start count domains states seed w :
  (forall t w',
      generate_dataset count domains states seed w = (Ok t, w') ->
      Forall (fun r => 1 <= Day r <= 3 /\ from_event_start r = true) t)
  /\ (domains <> [] -> states <> [] ->
      returns (generate_dataset count domains states seed)
        (Forall (fun r => 1 <= Day r <= 3 /\ from_event_start r = true)) w).
Proof.
  assert (forall j r, row_post domains states j r ->
                      1 <= Day r <= 3 /\ from_event_start r = true) as Hrow.
  { intros j r H. split; [|eapply row_post_from_event_start, H].
    destruct H as (s & _ & _ & _ & Hday & _). exact Hday. }
  split.
  - intros t w' H. apply generate_dataset_Ok in H.
    eapply rows_Forall; eauto.
  - intros Hd Hs. eapply returns_weaken.
    + now apply generate_dataset_returns.
    + intros t H. eapply rows_Forall; [exact Hrow|exact H].
Qed.

(** C5, as the code has it -- Empty selections and small counts.  The
    page answers an empty domain selection with the error "Please select
    at least one domain", returns nothing and leaves the session's
    dataset and both generators as they were: the generator is not
    called.  The generator itself, called with a count of at least one
    and empty domains or states, raises [IndexError] (a choice from an
    empty sequence) and builds no table.  Called with a count below one
    it raises nothing and returns the empty table. *)
Theorem empty_selection_outcomes count domains states seed ui session w :
  (domains_multiselect ui = [] ->
   generate_dataset_page ui session w
   = (Ok {| returned := None;
            hackathon_data := session;
            shown := [st_error "Please select at least one domain"] |}, w))
  /\ (1 <= count -> domains = [] \/ states = [] ->
      raises (generate_dataset count domains states seed) IndexError w)
  /\ (count < 1 ->
      exists w', generate_dataset count domains states seed w = (Ok [], w')).
Proof.
  split; [|split].
  - intros E. unfold generate_dataset_page. now rewrite E.
  - intros Hcount Hempty. unfold raises.
    rewrite generate_dataset_unfold, seqZ_cons by lia.
    apply for_each_raises, raises_bind_now, participant_raises, Hempty.
  - intros Hcount. rewrite generate_dataset_unfold.
    replace (seqZ 1 count) with (@nil Z); [simpl; eauto|].
    symmetry. apply seqZ_nil. lia.
Qed.

End Table.

(** C1, as stated, fails.  With the page's default selections and seed
    and CPython's generator, the third participant attends on day 2 but
    registers on 2023-03-15, in the second 22:39:39, before
    2023-03-16 00:00:00 where the window of day 2 would open:
    [random_date_time] always starts from [datetime(2023, 3, 15)]. *)
Lemma registration_before_own_day :
  exists t r second,
    fst (generate_dataset (G := mt19937) 50 default_domains default_states 42
           cpython_world) = Ok t
    /\ t !! 2%nat = Some r
    /\ Participant_ID r = "P003"
    /\ Name r = "Amanda Moore"
    /\ Day r = 2
    /\ datetime 2023 3 15 22 39 39 = Ok second
    /\ second <= Registration_Time r < second + us_per_second
    /\ in_own_day_window r = false.
Proof.
  eexists _, _, _. split; [vm_compute; reflexivity|].
  split; [vm_compute; reflexivity|].
  repeat (split; [vm_compute; reflexivity|]).
  split; [|vm_compute; reflexivity].
  split; [apply Z.leb_le|apply Z.ltb_lt]; vm_compute; reflexivity.
Qed.

(** C5, as stated, fails.  A count below one is not rejected: the
    generator returns the empty table, whatever the selections. *)
Lemma zero_count_returns_empty_table :
  fst (generate_dataset (G := lcg64) 0 [] [] 42 fresh_world) = Ok []
  /\ fst (generate_dataset (G := lcg64) (-3) default_domains default_states
            42 fresh_world) = Ok [].
Proof. split; reflexivity. Qed.

(** C3 at the page's defaults: fifty rows, [P001] to [P050]. *)
Lemma generate_dataset_count_ids_witness :
  exists t,
    fst (generate_dataset (G := lcg64) 50 default_domains default_states 42
           fresh_world) = Ok t
    /\ Z.of_nat (length t) = 50
    /\ Participant_ID <$> t = expected_ids 50
    /\ NoDup (Participant_ID <$> t).
Proof.
  destruct (generate_dataset_count_ids (G := lcg64) 50 default_domains
              default_states 42 fresh_world ltac:(lia)) as [Hrows Hex].
  destruct (Hex ltac:(discriminate) ltac:(discriminate)) as (t & w' & E).
  exists t. rewrite E. split; [reflexivity|]. exact (Hrows t w' E).
Defined.

(** C4 at the page's defaults. *)
Lemma generate_dataset_closure_witness :
  returns (generate_dataset (G := lcg64) 50 default_domains default_states 42)
    (Forall (fun r => Domain r ∈ default_domains
                      /\ State r ∈ default_states))
    fresh_world.
Proof.
  apply (generate_dataset_closure (G := lcg64) 50 default_domains
           default_states 42 fresh_world); discriminate.
Defined.

(** ** The sentiment gauge *)

Lemma sum_from_nonneg (l : list Z) (acc : Z) :
  Forall (fun x => 0 <= x) l -> 0 <= acc -> acc <= fold_left Z.add l acc.
Proof.
  intros H. revert acc. induction H as [|x l Hx _ IH]; intros acc Hacc; simpl.
  - lia.
  - specialize (IH (acc + x)). lia.
Qed.

Lemma sum_of_zeros (l : list Z) :
  Forall (fun x => x = 0) l -> fold_left Z.add l 0 = 0.
Proof. induction 1 as [|x l -> _ IH]; simpl; auto. Qed.

Lemma percent_of_zero count : percent_of count 0 = Int 0.
Proof. reflexivity. Qed.

Lemma percent_of_positive count total :
  0 < total ->
  percent_of count total
  = Float (float_of_Z count / float_of_Z total * 100)%float.
Proof.
  intros H. unfold percent_of, truediv.
  destruct (Z.gtb_spec total 0); [reflexivity|lia].
Qed.

Lemma lower_char_lower c : is_lower_alpha c = true -> lower_char c = c.
Proof. destruct c as [[] [] [] [] [] [] [] []]; intros H; solve [reflexivity | discriminate H]. Qed.

Lemma lower_letters word :
  all_chars is_lower_alpha word = true -> lower word = word.
Proof.
  induction word as [|c word IH]; [reflexivity|]. simpl. intros H.
  apply andb_prop in H as [Hc Hword]. now rewrite lower_char_lower, IH.
Qed.

Lemma keywords_letters :
  Forall (fun word => all_chars is_alpha word = true
                      /\ all_chars is_lower_alpha word = true)
         (positive_keywords ++ negative_keywords)%list.
Proof. repeat constructor. Qed.

Section GaugeFacts.
Context {P : StrContains}.

Lemma contains_sum_nonneg feedback word : 0 <= contains_sum feedback word.
Proof. unfold contains_sum. lia. Qed.

Lemma keyword_count_nonneg feedback keywords :
  0 <= keyword_count feedback keywords.
Proof.
  unfold keyword_count. apply (sum_from_nonneg _ 0); [|lia].
  apply Forall_forall. intros x Hx.
  apply list_elem_of_In, in_map_iff in Hx as (word & <- & _).
  apply contains_sum_nonneg.
Qed.

Lemma contains_sum_absent feedback word :
  (forall s, s ∈ feedback -> str_contains_nocase word s = false) ->
  contains_sum feedback word = 0.
Proof.
  intros H. unfold contains_sum.
  induction feedback as [|s feedback IH]; [reflexivity|].
  rewrite filter_cons_False.
  - apply IH. intros s' Hs'. apply H. now right.
  - rewrite H by left. discriminate.
Qed.

Lemma keyword_count_absent feedback keywords :
  (forall word s, word ∈ keywords -> s ∈ feedback ->
                  str_contains_nocase word s = false) ->
  keyword_count feedback keywords = 0.
Proof.
  intros H. unfold keyword_count. apply sum_of_zeros.
  apply Forall_forall. intros x Hx.
  apply list_elem_of_In, in_map_iff in Hx as (word & <- & Hw).
  apply contains_sum_absent. intros s Hs. apply H; [|exact Hs].
  now apply list_elem_of_In.
Qed.

Lemma total_keywords_absent feedback :
  no_tracked_keyword feedback -> total_keywords feedback = 0.
Proof.
  intros Hnone. unfold total_keywords, positive_count, negative_count.
  rewrite !keyword_count_absent; [reflexivity| |];
    intros word s Hw Hs; apply Hnone; auto; apply elem_of_app; auto.
Qed.

(** On ASCII feedback the search finds a keyword exactly when the
    keyword occurs in the entry put in lower case. *)
Lemma no_keyword_occurs feedback :
  Forall (fun s => is_ascii s = true) feedback ->
  (forall word s,
      word ∈ (positive_keywords ++ negative_keywords)%list -> s ∈ feedback ->
      occurs word (lower s) = false) ->
  no_tracked_keyword feedback.
Proof.
  intros Hascii Hnone word s Hword Hs.
  pose proof keywords_letters as Hletters.
  rewrite Forall_forall in Hletters, Hascii.
  destruct (Hletters word Hword) as [Halpha Hlower].
  rewrite str_contains_ascii by auto.
  rewrite (lower_letters word Hlower). now apply Hnone.
Qed.

(** C7, as the code has it -- Sentiment gauge.  For every collection of
    feedback strings the gauge value is computed without an exception.
    When the denominator [positive_count + negative_count] is 0 the
    value is the integer 0, for the negative side too; otherwise the
    denominator is positive and the value is the binary64 number
    [positive_count / total_keywords * 100]: the quotient of the two
    counts rounded, times 100, rounded again -- a percentage in
    floating point, not the exact fraction.  When no feedback string
    contains a tracked keyword the denominator is 0; on ASCII feedback
    that is the case when no keyword occurs in an entry put in lower
    case. *)
Theorem positive_percent_binary64 feedback :
  0 <= positive_count feedback <= total_keywords feedback
  /\ (total_keywords feedback = 0 ->
      positive_percent feedback = Int 0 /\ negative_percent feedback = Int 0)
  /\ (total_keywords feedback <> 0 ->
      0 < total_keywords feedback
      /\ positive_percent feedback
         = Float (float_of_Z (positive_count feedback)
                  / float_of_Z (total_keywords feedback) * 100)%float)
  /\ (no_tracked_keyword feedback -> total_keywords feedback = 0)
  /\ (Forall (fun s => is_ascii s = true) feedback ->
      (forall word s,
          word ∈ (positive_keywords ++ negative_keywords)%list ->
          s ∈ feedback -> occurs word (lower s) = false) ->
      positive_percent feedback = Int 0).
Proof.
  pose proof (keyword_count_nonneg feedback positive_keywords) as Hp.
  pose proof (keyword_count_nonneg feedback negative_keywords) as Hn.
  fold (positive_count feedback) in Hp. fold (negative_count feedback) in Hn.
  assert (total_keywords feedback = 0 ->
          positive_percent feedback = Int 0
          /\ negative_percent feedback = Int 0) as Hzero.
  { intros E. unfold positive_percent, negative_percent. rewrite E.
    split; apply percent_of_zero. }
  split; [unfold total_keywords; lia|]. split; [exact Hzero|].
  split; [|split].
  - intros Hne. assert (0 < total_keywords feedback) as Hpos
      by (unfold total_keywords in *; lia).
    split; [exact Hpos|]. unfold positive_percent.
    now apply percent_of_positive.
  - apply total_keywords_absent.
  - intros Hascii Hnone. apply Hzero, total_keywords_absent.
    now apply no_keyword_occurs.
Qed.

End GaugeFacts.

(** C7, as stated, fails.  Of the two strings one contains a positive
    keyword and one two negative keywords, so the positive fraction of
    the claim is 1/3.  The gauge value is the binary64 number
    33.33333333333333, which is neither 1/3 nor the exact percentage
    100/3. *)
Lemma positive_percent_not_fraction :
  (positive_fraction (P := ascii_search) ["I loved it"; "poor and unclear"]
   == 1 # 3)%Q
  /\ positive_percent (P := ascii_search) ["I loved it"; "poor and unclear"]
     = Float 33.33333333333333%float
  /\ exists q,
       float_value 33.33333333333333%float = Some q
       /\ ~ (q == 1 # 3)%Q /\ ~ (q == 100 # 3)%Q.
Proof.
  split; [vm_compute; reflexivity|]. split; [vm_compute; reflexivity|].
  eexists. split; [vm_compute; reflexivity|].
  split; intros H; vm_compute in H; discriminate H.
Qed.

(** ** The sepia filter *)

Lemma channels_spec (c : Z) : 0 <= c <= 255 -> In c channels.
Proof.
  intros H. apply list_elem_of_In. unfold channels.
  apply elem_of_seqZ. lia.
Qed.

Lemma clamp255_min t : clamp255 t = Z.min 255 t.
Proof. unfold clamp255. destruct (Z.gtb_spec t 255); lia. Qed.

(** *** Truncating a float that lies between two whole numbers *)

Lemma whole_floats : forallb whole_float (seqZ 0 513) = true.
Proof. vm_compute. reflexivity. Qed.

Lemma whole_float_spec k :
  0 <= k <= 512 -> whole_float k = true.
Proof.
  intros H. pose proof whole_floats as Hall. rewrite forallb_forall in Hall.
  apply Hall, list_elem_of_In, elem_of_seqZ. lia.
Qed.

Lemma digits2_pos_bounds m :
  2 ^ (Zpos (digits2_pos m) - 1) <= Zpos m < 2 ^ Zpos (digits2_pos m).
Proof.
  induction m as [m IH|m IH|]; cbn [digits2_pos];
    [change (Zpos m~1) with (2 * Zpos m + 1)
    |change (Zpos m~0) with (2 * Zpos m)
    |simpl; lia];
    rewrite Pos2Z.inj_succ;
    replace (Z.succ (Zpos (digits2_pos m)) - 1)
      with (Z.succ (Zpos (digits2_pos m) - 1)) by lia;
    rewrite !Z.pow_succ_r by lia; lia.
Qed.

Lemma bounded_mantissa m e :
  bounded prec emax m e = true ->
  Zpos m < 9007199254740992
  /\ (-1074 < e -> 4503599627370496 <= Zpos m).
Proof.
  unfold bounded, canonical_mantissa, fexp. intros H.
  apply andb_prop in H as [H _]. apply Z.eqb_eq in H.
  change (SpecFloat.emin prec emax) with (-1074) in H. change prec with 53 in H.
  pose proof (digits2_pos_bounds m) as [Hlo Hhi].
  split.
  - assert (Zpos (digits2_pos m) <= 53) as Hd by lia.
    apply (Z.pow_le_mono_r 2) in Hd; [|lia].
    change (2 ^ 53) with 9007199254740992 in Hd. lia.
  - intros He. assert (Zpos (digits2_pos m) = 53) as Hd by lia.
    rewrite Hd in Hlo. change (2 ^ (53 - 1)) with 4503599627370496 in Hlo.
    exact Hlo.
Qed.

Lemma int_of_finite x m e :
  Prim2SF x = S754_finite false m e -> e < 0 ->
  int_of_float x = Ok (Zpos m / 2 ^ (- e)).
Proof.
  intros E He. unfold int_of_float. rewrite E. f_equal.
  rewrite <- (Z.opp_involutive e) at 1.
  rewrite Z.shiftl_opp_r, Z.shiftr_div_pow2 by lia. reflexivity.
Qed.

Ltac closed_number n :=
  let n' := eval vm_compute in n in
  match n' with
  | Z0 => idtac
  | Zpos _ => idtac
  | Zneg _ => idtac
  end.

Ltac eval_powers :=
  repeat match goal with
         | |- context [2 ^ ?n] =>
             closed_number n;
             let c := eval vm_compute in (2 ^ n) in
             progress change (2 ^ n) with c
         | H : context [2 ^ ?n] |- _ =>
             closed_number n;
             let c := eval vm_compute in (2 ^ n) in
             progress change (2 ^ n) with c in H
         end.

Lemma SFleb_finite m1 e1 m2 e2 :
  SFleb (S754_finite false m1 e1) (S754_finite false m2 e2) = true ->
  e1 < e2 \/ (e1 = e2 /\ Zpos m1 <= Zpos m2).
Proof.
  cbv [SFleb SFcompare]. change (Pos.compare_cont Eq m1 m2) with (m1 ?= m2)%positive.
  destruct (Z.compare_spec e1 e2); [|auto|discriminate].
  destruct (Pos.compare_spec m1 m2); intros; try discriminate; right; lia.
Qed.

Lemma SFltb_finite m1 e1 m2 e2 :
  SFltb (S754_finite false m1 e1) (S754_finite false m2 e2) = true ->
  e1 < e2 \/ (e1 = e2 /\ Zpos m1 < Zpos m2).
Proof.
  cbv [SFltb SFcompare]. change (Pos.compare_cont Eq m1 m2) with (m1 ?= m2)%positive.
  destruct (Z.compare_spec e1 e2); [|auto|discriminate].
  destruct (Pos.compare_spec m1 m2); intros; try discriminate; right; lia.
Qed.

Lemma whole_float_finite k m e :
  (0 <? k) && (e =? Z.log2 k - 52) && (Zpos m =? k * 2 ^ (52 - Z.log2 k)) = true ->
  0 < k /\ e = Z.log2 k - 52 /\ Zpos m = k * 2 ^ (52 - Z.log2 k).
Proof.
  intros H. apply andb_prop in H as [H H3]. apply andb_prop in H as [H1 H2].
  apply Z.ltb_lt in H1. apply Z.eqb_eq in H2, H3. auto.
Qed.

Ltac log2_cases j :=
  match goal with
  | H : 0 <= j, H' : j <= 9 |- _ =>
      assert (j = 0 \/ j = 1 \/ j = 2 \/ j = 3 \/ j = 4 \/ j = 5 \/ j = 6
              \/ j = 7 \/ j = 8 \/ j = 9) as Hcases by lia;
      clear H H';
      destruct Hcases as [->|[->|[->|[->|[->|[->|[->|[->|[->| ->]]]]]]]]]
  end.

(** A float between the whole numbers [k] and [k + 1] truncates to
    [k]. *)
Lemma lies_in_unit_int k x :
  Uint63.to_Z k < 512 -> lies_in_unit k x = true ->
  int_of_float x = Ok (Uint63.to_Z k).
Proof.
  intros Hk H. pose proof (to_Z_bounded k) as Hk0.
  assert (k = Uint63.of_Z (Uint63.to_Z k)) as Ek by (symmetry; apply of_to_Z).
  assert ((k + 1)%uint63 = Uint63.of_Z (Uint63.to_Z k + 1)) as Ek1.
  { rewrite <- (of_to_Z (k + 1)). f_equal. rewrite Uint63.add_spec.
    change (Uint63.to_Z 1%uint63) with 1. apply Z.mod_small.
    change wB with 9223372036854775808. lia. }
  unfold lies_in_unit in H. rewrite Ek1 in H. rewrite Ek in H at 1.
  set (z := Uint63.to_Z k) in *. clearbody z. clear Ek Ek1 k.
  apply andb_prop in H as [Hle Hlt].
  rewrite FloatAxioms.leb_spec in Hle. rewrite FloatAxioms.ltb_spec in Hlt.
  pose proof (whole_float_spec z ltac:(lia)) as Hz.
  pose proof (whole_float_spec (z + 1) ltac:(lia)) as Hz1.
  unfold whole_float in Hz, Hz1.
  pose proof (Z.log2_nonneg z) as Hj0.
  pose proof (Z.log2_nonneg (z + 1)) as Hj1.
  assert (0 < z -> 2 ^ Z.log2 z <= z < 2 ^ Z.succ (Z.log2 z)) as Hlog
    by (intros; now apply Z.log2_spec).
  assert (2 ^ Z.log2 (z + 1) <= z + 1 < 2 ^ Z.succ (Z.log2 (z + 1))) as Hlog1
    by (apply Z.log2_spec; lia).
  assert (Z.log2 z <= 9) as Hj8.
  { destruct (Z.eq_dec z 0) as [->|]; [simpl; lia|].
    assert (Z.log2 z < 9); [apply Z.log2_lt_pow2; simpl; lia|lia]. }
  assert (Z.log2 (z + 1) <= 9) as Hj9.
  { assert (Z.log2 (z + 1) < 10); [apply Z.log2_lt_pow2; simpl; lia|lia]. }
  pose proof (FloatAxioms.Prim2SF_valid x) as Hv.
  destruct (Prim2SF (PrimFloat.of_uint63 (Uint63.of_Z (z + 1))))
    as [[]|[]| |[] mz1 ez1]; try discriminate;
    [apply Z.eqb_eq in Hz1; lia|].
  apply whole_float_finite in Hz1 as (_ & -> & Hmz1).
  destruct (Prim2SF x) as [s|s| |s m e] eqn:Ex.
  - (* a zero *)
    destruct (Prim2SF (PrimFloat.of_uint63 (Uint63.of_Z z)))
      as [[]|[]| |[] mz ez]; try discriminate.
    apply Z.eqb_eq in Hz as ->. unfold int_of_float. now rewrite Ex.
  - (* an infinity *)
    destruct s; [|discriminate].
    destruct (Prim2SF (PrimFloat.of_uint63 (Uint63.of_Z z)))
      as [[]|[]| |[] mz ez]; discriminate.
  - (* a NaN *)
    destruct (Prim2SF (PrimFloat.of_uint63 (Uint63.of_Z z)))
      as [[]|[]| |[] mz ez]; discriminate.
  - (* a finite number *)
    destruct s.
    { destruct (Prim2SF (PrimFloat.of_uint63 (Uint63.of_Z z)))
        as [[]|[]| |[] mz ez]; discriminate. }
    apply bounded_mantissa in Hv as [Hm Hm'].
    apply SFltb_finite in Hlt.
    assert (e < 0) as He by lia.
    rewrite (int_of_finite x m e Ex He). f_equal.
    destruct (Prim2SF (PrimFloat.of_uint63 (Uint63.of_Z z)))
      as [[]|[]| |[] mz ez]; try discriminate.
    + (* below one *)
      apply Z.eqb_eq in Hz as ->. apply Z.div_small.
      change (Z.log2 (0 + 1)) with 0 in *. simpl in Hmz1.
      split; [lia|].
      assert (e < -52) as He' by lia.
      assert (2 ^ 53 <= 2 ^ (- e)) by (apply Z.pow_le_mono_r; lia).
      change (2 ^ 53) with 9007199254740992 in *. lia.
    + (* from one on *)
      apply whole_float_finite in Hz as (Hpos & -> & Hmz).
      apply SFleb_finite in Hle. specialize (Hlog Hpos).
      remember (Z.log2 z) as j eqn:Ej. remember (Z.log2 (z + 1)) as j1 eqn:Ej1.
      clear Ej Ej1.
      remember (2 ^ (- e)) as d eqn:Ed.
      log2_cases j; log2_cases j1; eval_powers; try lia;
        match goal with
        | H : ?a - 52 < e \/ _ |- _ =>
            assert (e = a - 52 \/ e = a - 52 + 1) as [->| ->] by lia
        end;
        subst d; eval_powers;
        match goal with
        | |- Z.pos m / ?c = z =>
            assert (z <= Z.pos m / c) by (apply Z.div_le_lower_bound; lia);
            assert (Z.pos m / c < z + 1) by (apply Z.div_lt_upper_bound; lia)
        end; lia.
Qed.

(** *** Every pixel against the exact sum *)

Lemma near_formula_spec x e :
  Uint63.to_Z e < 512000 -> near_formula x e = true ->
  exists k,
    int_of_float x = Ok k /\ 0 <= k
    /\ (k = Uint63.to_Z e / 1000
        \/ (k = Uint63.to_Z e / 1000 - 1 /\ Uint63.to_Z e mod 1000 = 0)).
Proof.
  intros He H. unfold near_formula in H. cbv zeta in H.
  pose proof (to_Z_bounded e) as He0.
  assert (Uint63.to_Z (e / 1000)%uint63 = Uint63.to_Z e / 1000) as Eq
    by (rewrite Uint63.div_spec; reflexivity).
  assert (0 <= Uint63.to_Z e / 1000 < 512) as Hq.
  { split; [apply Z.div_pos; lia|apply Z.div_lt_upper_bound; lia]. }
  apply orb_prop in H as [H|H].
  - exists (Uint63.to_Z e / 1000). rewrite <- Eq at 1.
    split; [apply lies_in_unit_int; [lia|exact H]|]. split; [lia|auto].
  - apply andb_prop in H as [H Hunit]. apply andb_prop in H as [Hrem Hpos].
    apply Uint63.eqb_spec in Hrem. apply Uint63.ltb_spec in Hpos.
    change (Uint63.to_Z 0%uint63) with 0 in Hpos. rewrite Eq in Hpos.
    apply (f_equal Uint63.to_Z) in Hrem. rewrite Uint63.mod_spec in Hrem.
    change (Uint63.to_Z 1000%uint63) with 1000 in Hrem.
    change (Uint63.to_Z 0%uint63) with 0 in Hrem.
    assert (Uint63.to_Z (e / 1000 - 1)%uint63 = Uint63.to_Z e / 1000 - 1) as Eq1.
    { rewrite Uint63.sub_spec, Eq. change (Uint63.to_Z 1%uint63) with 1.
      apply Z.mod_small. change wB with 9223372036854775808. lia. }
    exists (Uint63.to_Z e / 1000 - 1). rewrite <- Eq1 at 1.
    split; [apply lies_in_unit_int; [lia|exact Hunit]|]. split; [lia|auto].
Qed.

Lemma to_Z_sum a b c :
  0 <= a -> 0 <= b -> 0 <= c -> a + b + c < 512000 ->
  Uint63.to_Z (Uint63.of_Z a + Uint63.of_Z b + Uint63.of_Z c)%uint63
  = a + b + c.
Proof.
  intros Ha Hb Hc H. rewrite !Uint63.add_spec, !Uint63.of_Z_spec.
  change wB with 9223372036854775808.
  rewrite (Z.mod_small a), (Z.mod_small b), (Z.mod_small c) by lia.
  rewrite (Z.mod_small (a + b)) by lia. apply Z.mod_small. lia.
Qed.

Lemma all_near_formula_spec c1 c2 c3 m1 m2 m3 r g b :
  all_near_formula c1 c2 c3 m1 m2 m3 = true ->
  0 <= r <= 255 -> 0 <= g <= 255 -> 0 <= b <= 255 ->
  near_formula (weighted c1 c2 c3 r g b)
    (Uint63.of_Z (m1 * r) + Uint63.of_Z (m2 * g) + Uint63.of_Z (m3 * b))%uint63
  = true.
Proof.
  intros H Hr Hg Hb. unfold all_near_formula in H. cbv zeta in H.
  rewrite forallb_forall in H. specialize (H r (channels_spec r Hr)).
  rewrite forallb_forall in H.
  specialize (H _ (in_map _ _ g (channels_spec g Hg))).
  rewrite forallb_forall in H.
  exact (H _ (in_map _ _ b (channels_spec b Hb))).
Qed.

(** One channel: the truncated binary64 sum is the whole part of the
    exact sum, or one less where the exact sum is a whole number. *)
Lemma sepia_channel c1 c2 c3 m1 m2 m3 r g b :
  all_near_formula c1 c2 c3 m1 m2 m3 = true ->
  0 <= m1 -> 0 <= m2 -> 0 <= m3 -> m1 + m2 + m3 <= 2000 ->
  0 <= r <= 255 -> 0 <= g <= 255 -> 0 <= b <= 255 ->
  exists k,
    int_of_float (weighted c1 c2 c3 r g b) = Ok k /\ 0 <= k
    /\ (k = (m1 * r + m2 * g + m3 * b) / 1000
        \/ (k = (m1 * r + m2 * g + m3 * b) / 1000 - 1
            /\ (m1 * r + m2 * g + m3 * b) mod 1000 = 0)).
Proof.
  intros H H1 H2 H3 Hsum Hr Hg Hb.
  pose proof (all_near_formula_spec _ _ _ _ _ _ r g b H Hr Hg Hb) as Hnear.
  assert (0 <= m1 * r <= m1 * 255) by nia.
  assert (0 <= m2 * g <= m2 * 255) by nia.
  assert (0 <= m3 * b <= m3 * 255) by nia.
  apply near_formula_spec in Hnear; rewrite to_Z_sum in * by lia;
    [exact Hnear|lia].
Qed.

Lemma red_near_formula : all_near_formula 0.393 0.769 0.189 393 769 189 = true.
Proof. vm_compute. reflexivity. Qed.

Lemma green_near_formula :
  all_near_formula 0.349 0.686 0.168 349 686 168 = true.
Proof. vm_compute. reflexivity. Qed.

Lemma blue_near_formula :
  all_near_formula 0.272 0.534 0.131 272 534 131 = true.
Proof. vm_compute. reflexivity. Qed.

Lemma clamp255_near m1 m2 m3 r g b k :
  0 <= k ->
  k = (m1 * r + m2 * g + m3 * b) / 1000
  \/ (k = (m1 * r + m2 * g + m3 * b) / 1000 - 1
      /\ (m1 * r + m2 * g + m3 * b) mod 1000 = 0) ->
  near_channel m1 m2 m3 r g b (clamp255 k).
Proof.
  intros Hk H. unfold near_channel, sepia_formula. rewrite clamp255_min.
  destruct H as [->|[-> Hrem]]; repeat split; lia.
Qed.

(** C10, as the code has it -- Sepia.  For every pixel with channels in
    0..255 the three conversions [int(...)] succeed and every new
    channel lies in 0..255 again.  The weighted sums are binary64 sums:
    each new channel is the value of the claim,
    [min(255, floor(c1 r + c2 g + c3 b))] in exact arithmetic, or one
    below it, and it is the value of the claim whenever the exact sum
    is not a whole number. *)
Theorem sepia_pixel_near_formula r g b :
  0 <= r <= 255 -> 0 <= g <= 255 -> 0 <= b <= 255 ->
  exists tr tg tb,
    sepia_pixel (r, g, b) = Ok (tr, tg, tb)
    /\ near_channel 393 769 189 r g b tr
    /\ near_channel 349 686 168 r g b tg
    /\ near_channel 272 534 131 r g b tb.
Proof.
  intros Hr Hg Hb.
  destruct (sepia_channel _ _ _ _ _ _ r g b red_near_formula)
    as (kr & Er & Hkr & Hr'); try lia.
  destruct (sepia_channel _ _ _ _ _ _ r g b green_near_formula)
    as (kg & Eg & Hkg & Hg'); try lia.
  destruct (sepia_channel _ _ _ _ _ _ r g b blue_near_formula)
    as (kb & Eb & Hkb & Hb'); try lia.
  exists (clamp255 kr), (clamp255 kg), (clamp255 kb).
  unfold sepia_pixel. rewrite Er, Eg, Eb. simpl result_bind.
  split; [reflexivity|]. auto using clamp255_near.
Qed.

(** C10 at the pixel (200, 100, 50). *)
Lemma sepia_pixel_near_formula_witness :
  exists tr tg tb,
    sepia_pixel (200, 100, 50) = Ok (tr, tg, tb)
    /\ near_channel 393 769 189 200 100 50 tr
    /\ near_channel 349 686 168 200 100 50 tg
    /\ near_channel 272 534 131 200 100 50 tb.
Proof.
  apply (sepia_pixel_near_formula 200 100 50); lia.
Defined.

(** C10, as stated, fails.  At (4, 11, 21) the exact red sum is
    1.572 + 8.459 + 3.969 = 14, so the claim's pixel is (14, 12, 9); the
    binary64 sum is just below 14 and the code stores (13, 12, 9). *)
Lemma sepia_pixel_below_formula :
  sepia_pixel (4, 11, 21) = Ok (13, 12, 9)
  /\ sepia_formula_pixel (4, 11, 21) = (14, 12, 9).
Proof. split; vm_compute; reflexivity. Qed.

Example sepia_pixel_white : sepia_pixel (255, 255, 255) = Ok (255, 255, 238).
Proof. vm_compute. reflexivity. Qed.

(** ** The common-word table *)

(** *** Matches of the pattern *)

Lemma lower_char_not_upper c : is_upper (lower_char c) = false.
Proof. destruct c as [[] [] [] [] [] [] [] []]; reflexivity. Qed.

Lemma alpha_not_upper c :
  is_alpha c = true -> is_upper c = false -> is_lower_alpha c = true.
Proof.
  destruct c as [[] [] [] [] [] [] [] []]; intros H1 H2;
    solve [reflexivity | discriminate H1 | discriminate H2].
Qed.

Lemma lower_not_upper s : all_chars (fun c => negb (is_upper c)) (lower s) = true.
Proof.
  induction s as [|c s IH]; simpl; [reflexivity|].
  now rewrite lower_char_not_upper, IH.
Qed.

Lemma letters_spec (p : ascii -> bool) k s tok l after :
  letters k s = Some (tok, l, after) ->
  String.length tok = k
  /\ all_chars is_alpha tok = true
  /\ (all_chars p s = true -> all_chars p tok = true).
Proof.
  revert s tok l after. induction k as [|k IH]; intros s tok l after H.
  - destruct s; discriminate.
  - destruct s as [|c rest]; [destruct k; discriminate|].
    assert (is_alpha c = true /\
            ((k = 0%nat /\ tok = String c EmptyString) \/
             exists tok' l' after', letters k rest = Some (tok', l', after')
                                    /\ tok = String c tok')) as [Hc Hrest].
    { simpl in H. destruct k as [|k'].
      - destruct (is_alpha c); [|discriminate]. injection H as <- _ _. auto.
      - destruct (is_alpha c); [|discriminate]. split; [reflexivity|].
        right. destruct (letters (S k') rest) as [[[tok' l'] after']|];
          [|discriminate].
        injection H as <- _ _. eauto. }
    destruct Hrest as [[-> ->]|(tok' & l' & after' & E & ->)].
    + simpl. rewrite Hc. repeat split. intros Hp.
      apply andb_prop in Hp as [-> _]. reflexivity.
    + destruct (IH _ _ _ _ E) as (Hlen & Halpha & Hp). simpl.
      rewrite Hc, Halpha, Hlen. repeat split. intros Hs.
      apply andb_prop in Hs as [-> Hs]. now rewrite Hp.
Qed.

Lemma letters_then_boundary_spec (p : ascii -> bool) lo n s tok :
  letters_then_boundary lo n s = Some tok ->
  (lo <= String.length tok < lo + n)%nat
  /\ all_chars is_alpha tok = true
  /\ (all_chars p s = true -> all_chars p tok = true).
Proof.
  induction n as [|n IH]; simpl; [discriminate|]. intros H.
  assert (letters_then_boundary lo n s = Some tok ->
          (lo <= String.length tok < lo + S n)%nat
          /\ all_chars is_alpha tok = true
          /\ (all_chars p s = true -> all_chars p tok = true)) as Hback.
  { intros H'. destruct (IH H') as (? & ? & ?). repeat split; auto; lia. }
  destruct (letters (lo + n) s) as [[[tok' l] after]|] eqn:E; [|auto].
  destruct (word_boundary (Some l) (head_char after)); [|auto].
  injection H as <-.
  destruct (letters_spec p _ _ _ _ _ E) as (Hlen & ? & ?).
  repeat split; auto; lia.
Qed.

Lemma all_chars_tail p c s : all_chars p (String c s) = true -> all_chars p s = true.
Proof. simpl. intros H. now apply andb_prop in H. Qed.

Lemma findall_from_cons prev skip c rest :
  findall_from prev skip (String c rest)
  = match skip with
    | S k => findall_from (Some c) k rest
    | O =>
        if word_boundary prev (Some c)
        then match letters_then_boundary 3 13 (String c rest) with
             | Some tok =>
                 tok :: findall_from (Some c) (String.length tok - 1) rest
             | None => findall_from (Some c) 0 rest
             end
        else findall_from (Some c) 0 rest
    end.
Proof. reflexivity. Qed.

Lemma findall_from_spec (p : ascii -> bool) s prev skip :
  all_chars p s = true ->
  Forall (fun tok => (3 <= String.length tok <= 15)%nat
                     /\ all_chars is_alpha tok = true
                     /\ all_chars p tok = true)
         (findall_from prev skip s).
Proof.
  revert prev skip. induction s as [|c rest IH]; intros prev skip Hp.
  - constructor.
  - pose proof (all_chars_tail _ _ _ Hp) as Hrest.
    rewrite findall_from_cons.
    destruct skip; [|now apply IH].
    destruct (word_boundary prev (Some c)); [|now apply IH].
    destruct (letters_then_boundary 3 13 (String c rest)) as [tok|] eqn:E;
      [|now apply IH].
    destruct (letters_then_boundary_spec p _ _ _ _ E) as (Hlen & Ha & Hq).
    constructor; [|now apply IH].
    repeat split; auto; lia.
Qed.

Lemma tokens_spec text :
  Forall (fun w => (3 <= String.length w <= 15)%nat
                   /\ all_chars is_lower_alpha w = true
                   /\ in_list w stopwords = false)
         (tokens text).
Proof.
  unfold tokens, findall_words.
  pose proof (findall_from_spec _ _ None 0%nat (lower_not_upper text)) as H.
  rewrite Forall_forall in H |- *. intros w Hw.
  apply list_elem_of_In, filter_In in Hw as [Hw Hstop].
  apply list_elem_of_In, H in Hw as (Hlen & Halpha & Hup).
  repeat split; try lia.
  - clear -Halpha Hup. induction w as [|c w IH]; [reflexivity|]. simpl in *.
    apply andb_prop in Halpha as [Hc Halpha].
    apply andb_prop in Hup as [Hu Hup].
    rewrite IH by assumption.
    rewrite alpha_not_upper; [reflexivity|assumption|].
    now destruct (is_upper c).
  - now destruct (in_list w stopwords).
Qed.

(** *** The counter *)

Lemma in_list_elem w l : in_list w l = true <-> w ∈ l.
Proof.
  unfold in_list. rewrite existsb_exists, list_elem_of_In. split.
  - intros (x & Hx & E). apply String.eqb_eq in E. now subst.
  - intros H. exists w. split; [exact H|apply String.eqb_refl].
Qed.

Lemma occurrences_app w l l' :
  occurrences w (l ++ l') = (occurrences w l + occurrences w l')%nat.
Proof. induction l as [|x l IH]; simpl; [reflexivity|]. rewrite IH. lia. Qed.

Lemma first_occurrence_lt w l :
  w ∈ l -> (first_occurrence w l < length l)%nat.
Proof.
  induction l as [|x l IH]; intros H; [now apply elem_of_nil in H|]. simpl.
  destruct (String.eqb_spec w x); [lia|].
  apply elem_of_cons in H as [H|H]; [contradiction|].
  specialize (IH H). lia.
Qed.

Lemma first_occurrence_app w l l' :
  w ∈ l -> first_occurrence w (l ++ l') = first_occurrence w l.
Proof.
  induction l as [|x l IH]; intros H; [now apply elem_of_nil in H|]. simpl.
  destruct (String.eqb_spec w x); [reflexivity|].
  apply elem_of_cons in H as [H|H]; [contradiction|]. now rewrite IH.
Qed.

Lemma first_occurrence_new w l :
  w ∉ l -> first_occurrence w (l ++ [w]) = length l.
Proof.
  induction l as [|x l IH]; intros H; simpl.
  - now rewrite String.eqb_refl.
  - apply not_elem_of_cons in H as [Hx Hl].
    destruct (String.eqb_spec w x); [contradiction|]. now rewrite IH.
Qed.

Lemma counter_add_counted x w c :
  counted x (counter_add w c)
  = ((if String.eqb x w then 1 else 0) + counted x c)%nat.
Proof.
  induction c as [|[w' n] c IH]; simpl.
  - destruct (String.eqb x w); lia.
  - destruct (String.eqb_spec w w') as [->|Hw]; simpl.
    + destruct (String.eqb x w'); lia.
    + destruct (String.eqb_spec x w') as [->|Hx]; [|exact IH].
      destruct (String.eqb_spec w' w); [congruence|lia].
Qed.

Lemma counter_add_keys w c :
  (counter_add w c).*1
  = if in_list w (c.*1) then c.*1 else (c.*1 ++ [w])%list.
Proof.
  induction c as [|[w' n] c IH]; [reflexivity|].
  cbn [counter_add]. unfold in_list in *. rewrite !fmap_cons. cbn [fst existsb].
  destruct (String.eqb w w'); [reflexivity|].
  rewrite fmap_cons, IH. cbn [fst orb].
  now destruct (existsb (String.eqb w) (c.*1)).
Qed.

Lemma Counter_snoc l w : Counter (l ++ [w]) = counter_add w (Counter l).
Proof. unfold Counter. now rewrite fold_left_app. Qed.

Lemma Counter_counted l w : counted w (Counter l) = occurrences w l.
Proof.
  induction l as [|x l IH] using rev_ind; [reflexivity|].
  rewrite Counter_snoc, counter_add_counted, occurrences_app, IH. simpl. lia.
Qed.

Lemma Counter_keys_elem l w : w ∈ (Counter l).*1 <-> w ∈ l.
Proof.
  induction l as [|x l IH] using rev_ind.
  - split; intros H; now apply elem_of_nil in H.
  - rewrite Counter_snoc, counter_add_keys, elem_of_app, list_elem_of_singleton.
    destruct (in_list x ((Counter l).*1)) eqn:E.
    + apply (proj1 (in_list_elem _ _)) in E. rewrite IH. split; [auto|].
      intros [H| ->]; [exact H|]. now apply IH.
    + now rewrite elem_of_app, list_elem_of_singleton, IH.
Qed.

Lemma StronglySorted_among {A} (R R' : A -> A -> Prop) l :
  (forall a b, a ∈ l -> b ∈ l -> R a b -> R' a b) ->
  StronglySorted R l -> StronglySorted R' l.
Proof.
  intros Himp H. induction H as [|a l Hl IH Ha]; constructor.
  - apply IH. intros x y Hx Hy. apply Himp; now right.
  - rewrite Forall_forall in Ha |- *. intros b Hb.
    apply Himp; [left|now right|now apply Ha].
Qed.

Lemma Counter_keys_sorted l :
  StronglySorted
    (fun a b => (first_occurrence a l < first_occurrence b l)%nat)
    ((Counter l).*1).
Proof.
  induction l as [|x l IH] using rev_ind; [constructor|].
  assert (StronglySorted
            (fun a b => (first_occurrence a (l ++ [x])
                         < first_occurrence b (l ++ [x]))%nat)
            ((Counter l).*1)) as Hold.
  { eapply StronglySorted_among; [|exact IH].
    intros a b Ha Hb Hab.
    apply (proj1 (Counter_keys_elem l a)) in Ha.
    apply (proj1 (Counter_keys_elem l b)) in Hb.
    cbv beta in Hab. rewrite !first_occurrence_app by assumption.
    exact Hab. }
  rewrite Counter_snoc, counter_add_keys.
  destruct (in_list x ((Counter l).*1)) eqn:E; [exact Hold|].
  apply StronglySorted_app_2; [|exact Hold|repeat constructor].
  intros a b Ha Hb. apply list_elem_of_singleton in Hb as ->.
  apply (proj1 (Counter_keys_elem l a)) in Ha.
  assert (x ∉ l) as Hx.
  { intros Hx. apply (proj2 (Counter_keys_elem l x)) in Hx.
    apply (proj2 (in_list_elem _ _)) in Hx. congruence. }
  rewrite first_occurrence_app, first_occurrence_new by assumption.
  now apply first_occurrence_lt.
Qed.

Lemma StronglySorted_NoDup {A} (R : A -> A -> Prop) l :
  (forall a, ~ R a a) -> StronglySorted R l -> NoDup l.
Proof.
  intros Hirr H. induction H as [|a l Hl IH Ha]; constructor; [|exact IH].
  intros Hin. rewrite Forall_forall in Ha. exact (Hirr a (Ha a Hin)).
Qed.

Lemma Counter_keys_NoDup l : NoDup ((Counter l).*1).
Proof.
  eapply StronglySorted_NoDup; [|apply Counter_keys_sorted].
  intros a. cbv beta. lia.
Qed.

Lemma counted_elem c w n : NoDup (c.*1) -> (w, n) ∈ c -> counted w c = n.
Proof.
  induction c as [|[w' n'] c IH]; intros Hnd H; [now apply elem_of_nil in H|].
  rewrite fmap_cons in Hnd. apply NoDup_cons in Hnd as [Hw' Hnd]. simpl.
  apply elem_of_cons in H as [H|H].
  - injection H as -> ->. now rewrite String.eqb_refl.
  - destruct (String.eqb_spec w w') as [->|_]; [|now apply IH].
    exfalso. apply Hw'. apply list_elem_of_fmap. now exists (w', n).
Qed.

Lemma counted_key c w : w ∈ c.*1 -> (w, counted w c) ∈ c.
Proof.
  induction c as [|[w' n'] c IH]; intros H; [now apply elem_of_nil in H|].
  rewrite fmap_cons in H. simpl in *.
  destruct (String.eqb_spec w w') as [->|Hne]; [left|].
  apply elem_of_cons in H as [H|H]; [contradiction|]. right. now apply IH.
Qed.

Lemma Counter_entries l w n :
  (w, n) ∈ Counter l <-> w ∈ l /\ n = occurrences w l.
Proof.
  split.
  - intros H. split.
    + apply Counter_keys_elem, list_elem_of_fmap. now exists (w, n).
    + rewrite <- Counter_counted. symmetry.
      apply counted_elem; [apply Counter_keys_NoDup|exact H].
  - intros [H ->]. rewrite <- Counter_counted.
    now apply counted_key, Counter_keys_elem.
Qed.

Lemma keys_sorted_entries (Q : string -> string -> Prop)
    (c : list (string * nat)) :
  StronglySorted Q (c.*1) ->
  StronglySorted (fun x y => Q (fst x) (fst y)) c.
Proof.
  induction c as [|x c IH]; intros H; [constructor|].
  rewrite fmap_cons in H. apply StronglySorted_inv in H as [Hc Hx].
  constructor; [now apply IH|].
  rewrite Forall_fmap in Hx. exact Hx.
Qed.

(** *** The ranking *)

Lemma insert_by_count_perm x l : insert_by_count x l ≡ₚ x :: l.
Proof.
  induction l as [|y l IH]; simpl; [reflexivity|].
  destruct (snd x <? snd y)%nat; [|reflexivity].
  rewrite IH. apply Permutation_swap.
Qed.

Lemma sorted_by_count_perm c : sorted_by_count c ≡ₚ c.
Proof.
  induction c as [|x c IH]; simpl; [reflexivity|].
  now rewrite insert_by_count_perm, IH.
Qed.

Section Ranking.
Variable before : string * nat -> string * nat -> Prop.

(** More frequent first; among equals, the order [before]. *)
Let ranked (x y : string * nat) : Prop :=
  (snd y < snd x)%nat \/ (snd x = snd y /\ before x y).

Lemma insert_by_count_sorted x l :
  Forall (before x) l ->
  StronglySorted ranked l -> StronglySorted ranked (insert_by_count x l).
Proof.
  intros Hx H. induction H as [|y l Hl IH Hy]; simpl.
  - repeat constructor.
  - apply Forall_cons in Hx as [Hxy Hxl].
    destruct (Nat.ltb_spec (snd x) (snd y)) as [Hlt|Hge].
    + constructor; [now apply IH|].
      rewrite insert_by_count_perm. constructor; [now left|exact Hy].
    + constructor; [now constructor|].
      constructor.
      * destruct (Nat.eq_dec (snd x) (snd y)); [right; auto|left; lia].
      * rewrite Forall_forall in Hy, Hxl |- *. intros z Hz.
        specialize (Hy z Hz). specialize (Hxl z Hz).
        destruct (Nat.eq_dec (snd x) (snd z)); [right; auto|].
        left. destruct Hy as [?|[? _]]; lia.
Qed.

Lemma sorted_by_count_sorted c :
  StronglySorted before c -> StronglySorted ranked (sorted_by_count c).
Proof.
  induction c as [|x c IH]; intros H; simpl; [constructor|].
  apply StronglySorted_inv in H as [Hc Hx].
  apply insert_by_count_sorted; [|now apply IH].
  now rewrite sorted_by_count_perm.
Qed.

End Ranking.

(** C8, as the code has it -- Common words.  For every text, the words
    counted are lower-case alphabetic, 3 to 15 letters long and not stop
    words.  The chart is the first 15 entries (the number is fixed, the
    caller does not choose it) of the ranking of all distinct words with
    their frequencies, ordered by descending frequency, words of equal
    frequency in the order in which they first occur in the text. *)
Theorem word_counts_top_15 text :
  Forall (fun w => (3 <= String.length w <= 15)%nat
                   /\ all_chars is_lower_alpha w = true
                   /\ in_list w stopwords = false)
         (tokens text)
  /\ exists ranking,
       (forall w n, (w, n) ∈ ranking
                    <-> w ∈ tokens text /\ n = occurrences w (tokens text))
       /\ NoDup (ranking.*1)
       /\ StronglySorted (ranks_before (tokens text)) ranking
       /\ word_counts text = take 15 ranking
       /\ word_counts text = top_words 15 text.
Proof.
  split; [apply tokens_spec|].
  exists (sorted_by_count (Counter (tokens text))).
  split; [|split; [|split; [|split]]].
  - intros w n. rewrite sorted_by_count_perm. apply Counter_entries.
  - rewrite sorted_by_count_perm. apply Counter_keys_NoDup.
  - apply (sorted_by_count_sorted
             (fun x y => (first_occurrence (fst x) (tokens text)
                          < first_occurrence (fst y) (tokens text))%nat)).
    apply (keys_sorted_entries
             (fun a b => (first_occurrence a (tokens text)
                          < first_occurrence b (tokens text))%nat)).
    apply Counter_keys_sorted.
  - reflexivity.
  - reflexivity.
Qed.

(** C8, as stated, fails: the caller does not choose how many words are
    returned.  A text of sixteen different words gives a chart of 15
    entries, where the sixteen most frequent words were to be returned. *)
Lemma word_counts_fixed_at_15 :
  length (tokens sixteen_words) = 16%nat
  /\ length (top_words 16 sixteen_words) = 16%nat
  /\ length (word_counts sixteen_words) = 15%nat
  /\ word_counts sixteen_words <> top_words 16 sixteen_words.
Proof.
  split; [vm_compute; reflexivity|]. split; [vm_compute; reflexivity|].
  split; [vm_compute; reflexivity|].
  intros E. apply (f_equal length) in E. vm_compute in E. discriminate.
Qed.

Example word_counts_quick_fox :
  word_counts "The quick brown fox, the lazy dog; quick quick fox abc123 don't x_yz Zed zed"
  = [("quick", 3%nat); ("fox", 2%nat); ("zed", 2%nat); ("brown", 1%nat);
     ("lazy", 1%nat); ("dog", 1%nat)].
Proof. vm_compute. reflexivity. Qed.

(** * Further properties *)

(** ** More about the rows *)

Lemma occurs_cons pat c s : occurs pat s = true -> occurs pat (String c s) = true.
Proof. intros H. simpl. rewrite H. apply orb_true_r. Qed.

Lemma prefix_append pat s : String.prefix pat (pat +:+ s) = true.
Proof.
  induction pat as [|c pat IH]; simpl; [now destruct s|].
  destruct (Ascii.ascii_dec c c); [exact IH|congruence].
Qed.

Lemma occurs_prefix pat s : String.prefix pat s = true -> occurs pat s = true.
Proof. intros H. destruct s; cbn [occurs]; now rewrite H. Qed.

Lemma occurs_here pat s : occurs pat (pat +:+ s) = true.
Proof. apply occurs_prefix, prefix_append. Qed.

Lemma prefix_append_l pat s s' :
  String.prefix pat s = true -> String.prefix pat (s +:+ s') = true.
Proof.
  revert s. induction pat as [|a pat IH]; intros s H.
  - now destruct (s +:+ s').
  - destruct s as [|c s]; [discriminate H|]. simpl in *.
    destruct (Ascii.ascii_dec a c); [now apply IH|discriminate].
Qed.

Lemma occurs_append_l pat s s' :
  occurs pat s = true -> occurs pat (s +:+ s') = true.
Proof.
  induction s as [|c s IH]; cbn [occurs]; intros H.
  - rewrite orb_false_r in H. now apply occurs_prefix, prefix_append_l.
  - apply orb_prop in H as [H|H].
    + now apply occurs_prefix, prefix_append_l.
    + apply occurs_cons, IH, H.
Qed.

Lemma format_domain_mentions template domain :
  occurs "{domain}" template = true ->
  occurs domain (format_domain template domain) = true.
Proof.
  unfold format_domain. induction template as [|c rest IH]; intros H.
  - discriminate H.
  - cbn [format_fields].
    destruct (String.prefix "{domain}" (String c rest)) eqn:E.
    + apply occurs_here.
    + cbn [occurs] in H. rewrite E in H. apply occurs_cons, IH, H.
Qed.

Lemma templates_have_field :
  forallb (occurs "{domain}")
          (positive_feedback ++ neutral_feedback ++ negative_feedback)
  = true.
Proof. vm_compute. reflexivity. Qed.

Lemma template_mentions_domain template domain :
  template ∈ (positive_feedback ++ neutral_feedback ++ negative_feedback)%list ->
  occurs domain (format_domain template domain) = true.
Proof.
  intros H. apply format_domain_mentions.
  pose proof templates_have_field as Hall. rewrite forallb_forall in Hall.
  now apply Hall, list_elem_of_In.
Qed.

Lemma feedback_pool_templates sentiment template :
  template ∈ feedback_pool sentiment ->
  template ∈ (positive_feedback ++ neutral_feedback ++ negative_feedback)%list.
Proof.
  unfold feedback_pool. rewrite !elem_of_app.
  destruct (String.eqb sentiment "positive"); [auto|].
  destruct (String.eqb sentiment "neutral"); auto.
Qed.

Lemma feedback_shape_mentions sentiment r :
  feedback_shape sentiment r -> occurs (Domain r) (Feedback r) = true.
Proof.
  intros (template & Ht & H).
  apply feedback_pool_templates, (template_mentions_domain _ (Domain r)) in Ht.
  destruct (domain_keywords !! Domain r) as [keywords|].
  - destruct H as (keyword & _ & ->). now apply occurs_append_l.
  - now rewrite H.
Qed.

Lemma round1_tenths (x : Q) :
  (4 <= x)%Q -> (x <= 10)%Q ->
  exists tenths : Z,
    40 <= tenths <= 100 /\ round1 x = (inject_Z tenths / inject_Z 10)%Q.
Proof.
  intros Hlo Hhi. exists (round_half_even (x * inject_Z 10)).
  split; [|reflexivity].
  apply round_half_even_bounds; unfold inject_Z; lra.
Qed.

Section Details.
Context {G : PRNG}.

Lemma participant_details_returns domains states i w :
  domains <> [] -> states <> [] ->
  returns (participant domains states i)
    (fun p => personal_fields (snd p)
              /\ fst p ∈ ["positive"; "neutral"; "negative"]
              /\ feedback_shape (fst p) (snd p)) w.
Proof.
  intros Hd Hs. unfold participant.
  eapply returns_bind; [apply random_choice_spec; discriminate|].
  intros first w1 Hfirst.
  eapply returns_bind; [apply random_choice_spec; discriminate|].
  intros last w2 Hlast.
  eapply returns_bind; [apply (random_randint_spec 18 35); lia|].
  intros age w3 Hage. cbv beta in Hage.
  eapply returns_bind; [apply random_choice_spec; discriminate|].
  intros gender w4 Hgender.
  eapply returns_bind; [apply random_choice_spec; discriminate|].
  intros college w5 Hcollege.
  eapply returns_bind; [apply random_choice_spec; assumption|].
  intros state w6 _.
  eapply returns_bind; [apply random_choice_spec; assumption|].
  intros domain w7 _.
  eapply returns_bind; [apply (random_randint_spec 1 3); lia|].
  intros day w8 Hday. cbv beta in Hday.
  eapply returns_bind; [apply lift_spec, start_date_value|].
  intros start_date w9 ->.
  eapply returns_bind; [apply lift_spec, end_date_value, Hday|].
  intros end_date w10 ->.
  eapply returns_bind with (mid := fun _ => True).
  { eapply returns_weaken; [apply random_date_time_spec|auto]. }
  intros registration_time w11 _.
  eapply returns_bind; [apply random_uniform_spec|].
  intros hours w12 (u & [Hu0 Hu1] & ->).
  eapply returns_bind.
  { eapply random_choices_spec; reflexivity. }
  intros drawn w13 (sentiment & -> & Hsent).
  eapply returns_bind; [now apply subscript_spec|].
  intros ? w14 ->.
  eapply returns_bind with (mid := fun t => t ∈ feedback_pool sentiment).
  { unfold feedback_pool.
    destruct (String.eqb sentiment "positive");
      [|destruct (String.eqb sentiment "neutral")];
      apply random_choice_spec; discriminate. }
  intros template w15 Htemplate.
  eapply returns_bind with
    (mid := fun feedback =>
       match domain_keywords !! domain with
       | Some keywords =>
           exists keyword,
             keyword ∈ keywords
             /\ feedback
                = format_domain template domain +:+ " The " +:+ keyword
                  +:+ " component was particularly interesting."
       | None => feedback = format_domain template domain
       end).
  { destruct (domain_keywords !! domain) as [keywords|] eqn:Ek.
    - eapply returns_bind.
      + apply random_choice_spec. eapply domain_keywords_nonempty, Ek.
      + intros keyword w16 Hk. apply returns_ret. cbv beta iota.
        exists keyword. auto.
    - now apply returns_ret. }
  intros feedback w17 Hfeedback.
  eapply returns_bind with (mid := fun _ => True).
  { destruct (String.eqb sentiment "negative"); simpl negb; cbv iota;
      (eapply returns_weaken;
       [apply random_randint_spec; lia|auto]). }
  intros project_completion w18 _. apply returns_ret. simpl.
  split; [|split; [exact Hsent|]].
  - unfold personal_fields. simpl.
    split; [exists first, last; auto|]. split; [lia|]. split; [exact Hgender|].
    split; [exact Hcollege|].
    apply round1_tenths; lra.
  - exists template. split; [exact Htemplate|exact Hfeedback].
Qed.

Lemma participant_details domains states i w p w' :
  participant domains states i w = (Ok p, w') ->
  personal_fields (snd p)
  /\ fst p ∈ ["positive"; "neutral"; "negative"]
  /\ feedback_shape (fst p) (snd p).
Proof.
  intros H. destruct (participant_Ok_nonempty _ _ _ _ _ _ H) as [Hd Hs].
  exact (returns_Ok _ _ _ _ _
           (participant_details_returns domains states i w Hd Hs) H).
Qed.

(** What holds of every row an iteration can append holds of every row
    of a table, and a table is returned when no selection is empty. *)
Lemma generate_dataset_rows (post : row -> Prop) count domains states seed w :
  (forall i w1 p w2,
      participant domains states i w1 = (Ok p, w2) -> post (snd p)) ->
  (forall t w',
      generate_dataset count domains states seed w = (Ok t, w') ->
      Forall post t)
  /\ (domains <> [] -> states <> [] ->
      returns (generate_dataset count domains states seed) (Forall post) w).
Proof.
  intros Hpost.
  assert (forall t w',
             generate_dataset count domains states seed w = (Ok t, w') ->
             Forall post t) as Hpartial.
  { intros t w' H. rewrite generate_dataset_unfold in H.
    apply (for_each_Ok _ (fun _ r => post r)) in H.
    - clear -H. induction H; constructor; auto.
    - intros i w1 r w2 E.
      apply bind_Ok in E as (p & w3 & Hp & E). injection E as <- _.
      eapply Hpost, Hp. }
  split; [exact Hpartial|].
  intros Hd Hs.
  destruct (generate_dataset_returns count domains states seed w Hd Hs)
    as (t & w' & E & _).
  exists t, w'. split; [exact E|]. eapply Hpartial, E.
Qed.

(** X1 -- Personal fields.  Every row of a generated table has a name
    made of a first name and a last name of the two pools separated by a
    space, an age of 18 to 35, one of the three genders, a college of
    the pool, and hours spent between 4.0 and 10.0 in whole tenths. *)
Theorem generate_dataset_personal_fields count domains states seed w :
  (forall t w',
      generate_dataset count domains states seed w = (Ok t, w') ->
      Forall personal_fields t)
  /\ (domains <> [] -> states <> [] ->
      returns (generate_dataset count domains states seed)
              (Forall personal_fields) w).
Proof.
  apply generate_dataset_rows. intros i w1 p w2 H.
  now apply participant_details in H.
Qed.

(** X2 -- Shape of the feedback.  Every row's feedback is a template of
    the positive, neutral or negative pool with the row's domain filled
    in; it is followed by the sentence naming a keyword exactly when the
    domain is one of the eight with keywords, and the keyword is one of
    that domain's. *)
Theorem generate_dataset_feedback_shape count domains states seed w :
  (forall t w',
      generate_dataset count domains states seed w = (Ok t, w') ->
      Forall (fun r => exists sentiment,
                  sentiment ∈ ["positive"; "neutral"; "negative"]
                  /\ feedback_shape sentiment r) t)
  /\ (domains <> [] -> states <> [] ->
      returns (generate_dataset count domains states seed)
        (Forall (fun r => exists sentiment,
                    sentiment ∈ ["positive"; "neutral"; "negative"]
                    /\ feedback_shape sentiment r)) w).
Proof.
  apply generate_dataset_rows. intros i w1 [sentiment r] w2 H.
  apply participant_details in H as (_ & Hs & Hf). eauto.
Qed.

(** X3 -- The feedback names the domain.  In every row of a generated
    table the text of the row's domain occurs in the row's feedback,
    whatever domain names the caller passed in. *)
Theorem generate_dataset_feedback_mentions_domain count domains states seed w :
  (forall t w',
      generate_dataset count domains states seed w = (Ok t, w') ->
      Forall (fun r => occurs (Domain r) (Feedback r) = true) t)
  /\ (domains <> [] -> states <> [] ->
      returns (generate_dataset count domains states seed)
        (Forall (fun r => occurs (Domain r) (Feedback r) = true)) w).
Proof.
  apply generate_dataset_rows. intros i w1 [sentiment r] w2 H.
  apply participant_details in H as (_ & _ & Hf).
  eapply feedback_shape_mentions, Hf.
Qed.

End Details.

(** ** Counts, identifiers and times *)

Lemma three_digits_below_1000 :
  forallb (fun i => (String.length (format_03d i) =? 3)%nat) (seqZ 0 1000)
  = true.
Proof. vm_compute. reflexivity. Qed.

Lemma format_03d_width i :
  0 <= i <= 999 -> String.length (format_03d i) = 3%nat.
Proof.
  intros H. pose proof three_digits_below_1000 as Hall.
  rewrite forallb_forall in Hall.
  apply Nat.eqb_eq, Hall, list_elem_of_In, elem_of_seqZ. lia.
Qed.

Lemma format_03d_value i :
  0 <= i -> digits_value (format_03d i) = Some (Z.to_N i).
Proof.
  intros H. unfold format_03d. destruct (Z.ltb_spec i 0); [lia|].
  apply digits_value_zfill.
Qed.

Lemma timedelta_bounds_days u1 u2 days :
  unit_interval u1 -> unit_interval u2 -> 0 <= days ->
  0 <= timedelta (u1 * inject_Z days) (u2 * inject_Z 86400)
    <= (days + 1) * us_per_day.
Proof.
  intros [H1 H1'] [H2 H2'] Hdays. unfold timedelta.
  assert (0 <= inject_Z days)%Q as Hd.
  { change 0%Q with (inject_Z 0). now rewrite <- Zle_Qle. }
  assert (0 <= u1 * inject_Z days)%Q as Hlo by (apply Qmult_le_0_compat; auto).
  assert (u1 * inject_Z days <= inject_Z days)%Q as Hhi.
  { rewrite <- (Qmult_1_l (inject_Z days)) at 2.
    apply Qmult_le_compat_r; [now apply Qlt_le_weak|exact Hd]. }
  apply round_half_even_bounds.
  - remember (u1 * inject_Z days)%Q as p.
    unfold us_per_second, inject_Z. lra.
  - rewrite inject_Z_mult, inject_Z_plus.
    remember (inject_Z days) as d. remember (u1 * d)%Q as p.
    unfold us_per_day, us_per_second, inject_Z. eval_numerators. lra.
Qed.

Section Counts.
Context {G : PRNG}.

Lemma for_each_app {A} (body : Z -> M A) l1 l2 w :
  for_each (l1 ++ l2) body w
  = bind (for_each l1 body)
         (fun xs => bind (for_each l2 body)
                         (fun ys => ret (xs ++ ys)%list)) w.
Proof.
  revert w. induction l1 as [|i l1 IH]; intros w; simpl.
  - unfold bind, ret. destruct (for_each l2 body w) as [[ys|e] w1]; reflexivity.
  - unfold bind, ret in *.
    destruct (body i w) as [[x|e] w1]; [|reflexivity].
    rewrite IH.
    destruct (for_each l1 body w1) as [[xs|e] w2]; [|reflexivity].
    destruct (for_each l2 body w2) as [[ys|e] w3]; reflexivity.
Qed.

Lemma for_each_length {A} (body : Z -> M A) indices w xs w' :
  for_each indices body w = (Ok xs, w') -> length xs = length indices.
Proof.
  intros H. apply (for_each_Ok _ (fun _ _ => True)) in H; [|auto].
  symmetry. eapply Forall2_length, H.
Qed.

(** X4 -- A larger count extends the table.  With the same domains,
    states and seed, the table of [n] participants is the first [n]
    rows of the table of [n + k] participants: raising the count keeps
    the rows already generated and appends new ones. *)
Theorem generate_dataset_prefix n k domains states seed w t w' :
  0 <= n -> 0 <= k ->
  generate_dataset (n + k) domains states seed w = (Ok t, w') ->
  exists w1,
    generate_dataset n domains states seed w = (Ok (take (Z.to_nat n) t), w1).
Proof.
  intros Hn Hk H. rewrite generate_dataset_unfold in *.
  rewrite seqZ_app, for_each_app in H by assumption.
  apply bind_Ok in H as (xs & w1 & Hxs & H).
  apply bind_Ok in H as (ys & w2 & Hys & H). injection H as <- _.
  exists w1. rewrite Hxs. do 2 f_equal.
  apply for_each_length in Hxs. rewrite length_seqZ in Hxs.
  rewrite take_app_length'; [reflexivity|lia].
Qed.

(** X5 -- Four-character identifiers.  With at least one domain and
    one state and a count of at most 999, the generator returns a table
    in which the row at position [k] (from 0) has the identifier ["P"]
    followed by exactly three digits, and the digits read back as
    [k + 1]. *)
Theorem generate_dataset_id_digits count domains states seed w :
  domains <> [] -> states <> [] -> count <= 999 ->
  returns (generate_dataset count domains states seed)
    (fun t =>
       forall k r, t !! k = Some r ->
         exists digits,
           Participant_ID r = "P" +:+ digits
           /\ String.length digits = 3%nat
           /\ digits_value digits = Some (N.of_nat (S k))) w.
Proof.
  intros Hd Hs Hcount.
  destruct (generate_dataset_returns count domains states seed w Hd Hs)
    as (t & w' & E & _).
  exists t, w'. split; [exact E|]. intros k r Hk.
  apply generate_dataset_Ok, rows_ids in E.
  apply (f_equal (fun l => l !! k)) in E.
  rewrite !list_lookup_fmap, Hk in E. simpl in E.
  destruct (seqZ 1 count !! k) as [i|] eqn:Ei; [|discriminate].
  apply lookup_seqZ in Ei as [-> Hlt]. injection E as E.
  exists (format_03d (1 + Z.of_nat k)). split; [exact E|]. split.
  - apply format_03d_width. lia.
  - rewrite format_03d_value by lia. f_equal. lia.
Qed.

(** X6 -- Bounds of [random_date_time].  When [end_date] is not before
    [start_date], the time returned is never before [start_date] and at
    most [delta.days + 1] whole days after it, where [delta] is
    [end_date - start_date]. *)
Theorem random_date_time_bounds start_date end_date w :
  start_date <= end_date ->
  returns (random_date_time start_date end_date)
    (fun t =>
       start_date <= t
       <= start_date
          + (timedelta_days (end_date - start_date) + 1) * us_per_day) w.
Proof.
  intros Hle. eapply returns_weaken; [apply random_date_time_spec|].
  intros t (u1 & u2 & H1 & H2 & ->).
  assert (0 <= timedelta_days (end_date - start_date)) as Hdays.
  { unfold timedelta_days. apply Z.div_pos; [lia|reflexivity]. }
  pose proof (timedelta_bounds_days u1 u2 _ H1 H2 Hdays). lia.
Qed.

End Counts.

(** X4 at five participants, of which the first two. *)
Lemma generate_dataset_prefix_witness :
  exists t w1,
    fst (generate_dataset (G := lcg64) 5 default_domains default_states 42
           fresh_world) = Ok t
    /\ generate_dataset (G := lcg64) 2 default_domains default_states 42
         fresh_world = (Ok (take 2 t), w1).
Proof.
  destruct (generate_dataset_returns (G := lcg64) 5 default_domains
              default_states 42 fresh_world ltac:(discriminate)
              ltac:(discriminate)) as (t & w' & E & _).
  destruct (generate_dataset_prefix (G := lcg64) 2 3 default_domains
              default_states 42 fresh_world t w' ltac:(lia) ltac:(lia) E)
    as (w1 & E1).
  exists t, w1. change (2 + 3) with 5 in E. rewrite E. split; [reflexivity|].
  exact E1.
Defined.

(** X5 at a table of fifty. *)
Lemma generate_dataset_id_digits_witness :
  returns (generate_dataset (G := lcg64) 50 default_domains default_states 42)
    (fun t =>
       forall k r, t !! k = Some r ->
         exists digits,
           Participant_ID r = "P" +:+ digits
           /\ String.length digits = 3%nat
           /\ digits_value digits = Some (N.of_nat (S k))) fresh_world.
Proof.
  apply (generate_dataset_id_digits (G := lcg64) 50 default_domains
           default_states 42 fresh_world);
    [discriminate|discriminate|lia].
Defined.

(** X6 for a window of about two days. *)
Lemma random_date_time_bounds_witness :
  returns (random_date_time (G := lcg64) 1678838400000000 1679011199000000)
    (fun t => 1678838400000000 <= t
              <= 1678838400000000
                 + (timedelta_days (1679011199000000 - 1678838400000000) + 1)
                   * us_per_day)
    fresh_world.
Proof.
  apply (random_date_time_bounds (G := lcg64) 1678838400000000
           1679011199000000 fresh_world). lia.
Defined.

(** ** The data generation page *)

Section Page.
Context {G : PRNG}.

Lemma page_guard_passed (ui : widgets) :
  domains_multiselect ui <> [] ->
  (length (domains_multiselect ui) <? 1)%nat = false.
Proof.
  intros H. apply Nat.ltb_ge.
  destruct (domains_multiselect ui); [congruence|simpl; lia].
Qed.

Lemma generate_dataset_length count domains states seed w :
  domains <> [] -> states <> [] ->
  returns (generate_dataset count domains states seed)
          (fun t => length t = Z.to_nat count) w.
Proof.
  intros Hd Hs. eapply returns_weaken; [now apply generate_dataset_returns|].
  intros t H. apply Forall2_length in H. now rewrite length_seqZ in H.
Qed.

(** X7 -- A click generates and stores the table.  With at least one
    domain and one state selected and no file uploaded, pressing the
    button makes the page return a table of as many rows as the slider
    says, keep that same table as the session's dataset, and show the
    two success messages, the first one naming the number of rows. *)
Theorem generate_dataset_page_click ui session w :
  domains_multiselect ui <> [] ->
  states_multiselect ui <> [] ->
  generate_clicked ui = true ->
  uploaded_file ui = None ->
  returns (generate_dataset_page ui session)
    (fun pg =>
       exists t,
         returned pg = Some t
         /\ hackathon_data pg = Some t
         /\ length t = Z.to_nat (num_participants_slider ui)
         /\ shown pg
            = [st_success ("Successfully generated dataset with "
                           +:+ str_of_N (N.of_nat (length t))
                           +:+ " participants!");
               st_success
                 "Dataset also saved locally as 'hackathon_data.csv'"]) w.
Proof.
  intros Hd Hs Hclick Hup. unfold generate_dataset_page.
  rewrite (page_guard_passed ui Hd), Hclick, Hup.
  eapply returns_bind with
    (mid := fun clicked : option table * list message =>
       exists t,
         length t = Z.to_nat (num_participants_slider ui)
         /\ clicked
            = (Some t,
               [st_success ("Successfully generated dataset with "
                            +:+ str_of_len t +:+ " participants!");
                st_success
                  "Dataset also saved locally as 'hackathon_data.csv'"])).
  - eapply returns_bind; [now apply generate_dataset_length|].
    intros t w1 Ht. apply returns_ret. exists t. auto.
  - intros clicked w1 (t & Hlen & ->). apply returns_ret. simpl.
    exists t. repeat split. exact Hlen.
Qed.

(** X8 -- An upload wins.  With at least one domain selected, an
    uploaded file becomes both the table the page returns and the
    session's dataset, also when a table was generated in the same run
    (button pressed, at least one state selected). *)
Theorem generate_dataset_page_upload ui session data w :
  domains_multiselect ui <> [] ->
  uploaded_file ui = Some data ->
  generate_clicked ui = false \/ states_multiselect ui <> [] ->
  returns (generate_dataset_page ui session)
    (fun pg => returned pg = Some data /\ hackathon_data pg = Some data) w.
Proof.
  intros Hd Hup Hrun. unfold generate_dataset_page.
  rewrite (page_guard_passed ui Hd), Hup.
  eapply returns_bind with (mid := fun _ => True).
  - destruct (generate_clicked ui) eqn:Hclick.
    + destruct Hrun as [?|Hs]; [discriminate|].
      eapply returns_bind; [now apply generate_dataset_length|].
      intros t w1 _. now apply returns_ret.
    + now apply returns_ret.
  - intros clicked w1 _. apply returns_ret. auto.
Qed.

(** X9 -- An empty state selection is not caught.  With at least one
    domain but no state selected, pressing the button with a count of at
    least one lets the [IndexError] of the generator escape from the
    page: only the domain selection is checked. *)
Theorem generate_dataset_page_no_states ui session w :
  domains_multiselect ui <> [] ->
  states_multiselect ui = [] ->
  generate_clicked ui = true ->
  1 <= num_participants_slider ui ->
  raises (generate_dataset_page ui session) IndexError w.
Proof.
  intros Hd Hs Hclick Hcount. unfold generate_dataset_page.
  rewrite (page_guard_passed ui Hd), Hclick.
  apply raises_bind_now, raises_bind_now.
  unfold raises. rewrite generate_dataset_unfold, seqZ_cons by lia.
  apply for_each_raises, raises_bind_now, participant_raises. now right.
Qed.

End Page.

(** X7 at the page's defaults. *)
Lemma generate_dataset_page_click_witness :
  returns (generate_dataset_page (G := lcg64) default_click None)
    (fun pg =>
       exists t,
         returned pg = Some t
         /\ hackathon_data pg = Some t
         /\ length t = 350%nat
         /\ shown pg
            = [st_success ("Successfully generated dataset with "
                           +:+ str_of_N (N.of_nat (length t))
                           +:+ " participants!");
               st_success
                 "Dataset also saved locally as 'hackathon_data.csv'"])
    fresh_world.
Proof.
  apply (generate_dataset_page_click (G := lcg64) default_click None
           fresh_world); (discriminate || reflexivity).
Defined.

(** X8: an empty file uploaded in the run that also generates. *)
Lemma generate_dataset_page_upload_witness :
  returns
    (generate_dataset_page (G := lcg64)
       (Widgets 350 default_domains default_states 42 true (Some [])) None)
    (fun pg => returned pg = Some [] /\ hackathon_data pg = Some [])
    fresh_world.
Proof.
  apply (generate_dataset_page_upload (G := lcg64)
           (Widgets 350 default_domains default_states 42 true (Some []))
           None [] fresh_world);
    [discriminate|reflexivity|right; discriminate].
Defined.

(** X9: every state deselected. *)
Lemma generate_dataset_page_no_states_witness :
  raises
    (generate_dataset_page (G := lcg64)
       (Widgets 350 default_domains [] 42 true None) None)
    IndexError fresh_world.
Proof.
  apply (generate_dataset_page_no_states (G := lcg64)
           (Widgets 350 default_domains [] 42 true None) None fresh_world);
    [discriminate|reflexivity|reflexivity|simpl; lia].
Defined.

(** ** More about the sentiment gauge *)

Lemma sum_from_le (l : list Z) (bound acc : Z) :
  Forall (fun x => x <= bound) l ->
  fold_left Z.add l acc <= acc + Z.of_nat (length l) * bound.
Proof.
  intros H. revert acc. induction H as [|x l Hx _ IH]; intros acc; simpl length.
  - simpl. lia.
  - simpl fold_left. specialize (IH (acc + x)). lia.
Qed.

Section GaugeBounds.
Context {P : StrContains}.

Lemma contains_sum_le feedback word :
  contains_sum feedback word <= Z.of_nat (length feedback).
Proof.
  unfold contains_sum. apply inj_le.
  induction feedback as [|s feedback IH]; [reflexivity|].
  destruct (decide (str_contains_nocase word s = true)) as [H|H].
  - rewrite filter_cons_True by exact H. simpl. lia.
  - rewrite filter_cons_False by exact H. simpl. lia.
Qed.

(** X11 -- Bounds of the keyword counts.  Each of the two counts lies
    between 0 and ten times the number of feedback strings: a string is
    counted once for every keyword of the list it contains, so a count
    can exceed the number of strings but not ten times it. *)
Theorem keyword_counts_bounded feedback :
  0 <= positive_count feedback <= 10 * Z.of_nat (length feedback)
  /\ 0 <= negative_count feedback <= 10 * Z.of_nat (length feedback).
Proof.
  assert (forall keywords,
             keyword_count feedback keywords
             <= Z.of_nat (length keywords) * Z.of_nat (length feedback))
    as Hbound.
  { intros keywords. unfold keyword_count.
    pose proof (sum_from_le (map (contains_sum feedback) keywords)
                            (Z.of_nat (length feedback)) 0) as H.
    rewrite length_map in H. simpl in H. apply H.
    apply Forall_forall. intros x Hx.
    apply list_elem_of_In, in_map_iff in Hx as (word & <- & _).
    apply contains_sum_le. }
  pose proof (Hbound positive_keywords) as Hp.
  pose proof (Hbound negative_keywords) as Hn.
  pose proof (keyword_count_nonneg feedback positive_keywords).
  pose proof (keyword_count_nonneg feedback negative_keywords).
  unfold positive_count, negative_count.
  change (Z.of_nat (length positive_keywords)) with 10 in Hp.
  change (Z.of_nat (length negative_keywords)) with 10 in Hn.
  lia.
Qed.

End GaugeBounds.

Lemma domain_data_spec data domain r :
  r ∈ domain_data data domain <-> r ∈ data /\ Domain r = domain.
Proof.
  unfold domain_data. rewrite !list_elem_of_In, filter_In.
  now rewrite String.eqb_eq.
Qed.

Section AnalysisFacts.
Context {P : StrContains} {W : WordCloud}.

(** X13 -- The analysis of one domain.  The warning is shown exactly
    when the table has no row of the domain, and the word cloud is then
    not asked for.  Otherwise the function fails exactly when
    [WordCloud.generate] fails on the joined feedback of the domain's
    rows, with the same exception; when the cloud is drawn, the
    statistics count the rows of that domain and no others, and the two
    gauge values are those of the feedback of these rows. *)
Theorem domain_feedback_analysis_outcome data domain max_words color_theme :
  match domain_feedback_analysis data domain max_words color_theme with
  | Ok (st_warning text) =>
      text = "No feedback data available for " +:+ domain +:+ "."
      /\ forall r, r ∈ data -> Domain r <> domain
  | Ok (st_statistics cloud s) =>
      (exists r, r ∈ data /\ Domain r = domain)
      /\ wordcloud_generate color_theme max_words
           (str_cat (Feedback <$> domain_data data domain)) = Ok cloud
      /\ stat_participants s = Z.of_nat (length (domain_data data domain))
      /\ 1 <= stat_participants s <= Z.of_nat (length data)
      /\ stat_positive_percent s
         = positive_percent (Feedback <$> domain_data data domain)
      /\ stat_negative_percent s
         = negative_percent (Feedback <$> domain_data data domain)
  | Raise e =>
      (exists r, r ∈ data /\ Domain r = domain)
      /\ wordcloud_generate color_theme max_words
           (str_cat (Feedback <$> domain_data data domain)) = Raise e
  end.
Proof.
  unfold domain_feedback_analysis.
  destruct (domain_data data domain) as [|r0 rows] eqn:E.
  - split; [reflexivity|]. intros r Hr Hd.
    assert (r ∈ domain_data data domain) as Hin by now apply domain_data_spec.
    rewrite E in Hin. now apply elem_of_nil in Hin.
  - assert (r0 ∈ domain_data data domain) as Hin by (rewrite E; left).
    apply domain_data_spec in Hin as [Hin Hd].
    cbv zeta.
    destruct (wordcloud_generate color_theme max_words
                (str_cat (Feedback <$> r0 :: rows))) as [cloud|e];
      cbn [result_bind].
    + split; [eauto|]. split; [reflexivity|].
      cbn [stat_participants stat_positive_percent stat_negative_percent].
      split; [reflexivity|]. split; [|split; reflexivity].
      pose proof (filter_length (fun r => String.eqb (Domain r) domain) data)
        as Hl.
      fold (domain_data data domain) in Hl. rewrite E in Hl.
      cbn [length] in *. lia.
    + split; [eauto|reflexivity].
Qed.

End AnalysisFacts.

(** ** More about the common-word chart *)

Lemma word_side_only prev prev' skip s :
  word_side prev = word_side prev' ->
  findall_from prev skip s = findall_from prev' skip s.
Proof.
  intros H. destruct s as [|c rest]; [reflexivity|].
  rewrite !findall_from_cons. unfold word_boundary. now rewrite H.
Qed.

Lemma letters_unfold k c rest :
  letters (S k) (String c rest)
  = if is_alpha c
    then match k with
         | O => Some (String c EmptyString, c, rest)
         | S _ => match letters k rest with
                  | Some (tok, l, after) => Some (String c tok, l, after)
                  | None => None
                  end
         end
    else None.
Proof. destruct k; reflexivity. Qed.

Lemma letters_nil k : letters k EmptyString = None.
Proof. destruct k as [|[|k]]; reflexivity. Qed.

Lemma letters_split k s tok l after :
  letters k s = Some (tok, l, after) -> s = tok +:+ after.
Proof.
  revert s tok l after. induction k as [|k IH]; intros s tok l after H.
  - destruct s; discriminate.
  - destruct s as [|c rest]; [now rewrite letters_nil in H|].
    rewrite letters_unfold in H. destruct (is_alpha c); [|discriminate].
    destruct k as [|k'].
    + injection H as <- _ <-. reflexivity.
    + destruct (letters (S k') rest) as [[[tok' l'] after']|] eqn:E;
        [|discriminate].
      injection H as <- _ <-.
      exact (f_equal (String c) (IH _ _ _ _ E)).
Qed.

Lemma letters_append k s t :
  letters k (s +:+ " " +:+ t)
  = match letters k s with
    | Some (tok, l, after) => Some (tok, l, after +:+ " " +:+ t)
    | None => None
    end.
Proof.
  revert s. induction k as [|k IH]; intros s.
  - destruct s; reflexivity.
  - destruct s as [|c rest].
    + rewrite letters_nil.
      change (EmptyString +:+ " " +:+ t) with (String " " t).
      now rewrite letters_unfold.
    + change (String c rest +:+ " " +:+ t) with (String c (rest +:+ " " +:+ t)).
      rewrite !letters_unfold. destruct (is_alpha c); [|reflexivity].
      destruct k as [|k']; [reflexivity|].
      rewrite IH. now destruct (letters (S k') rest) as [[[tok l] after]|].
Qed.

Lemma head_char_side after t :
  word_side (head_char (after +:+ " " +:+ t)) = word_side (head_char after).
Proof. now destruct after. Qed.

Lemma letters_then_boundary_append lo n s t :
  letters_then_boundary lo n (s +:+ " " +:+ t) = letters_then_boundary lo n s.
Proof.
  induction n as [|n IH]; [reflexivity|]. simpl.
  rewrite letters_append, IH.
  destruct (letters (lo + n) s) as [[[tok l] after]|]; [|reflexivity].
  unfold word_boundary. now rewrite head_char_side.
Qed.

Lemma letters_then_boundary_prefix lo n s tok :
  letters_then_boundary lo n s = Some tok -> exists after, s = tok +:+ after.
Proof.
  induction n as [|n IH]; simpl; [discriminate|].
  destruct (letters (lo + n) s) as [[[tok' l] after]|] eqn:E; [|exact IH].
  destruct (word_boundary (Some l) (head_char after)); [|exact IH].
  intros H. injection H as <-. exists after. eapply letters_split, E.
Qed.

Lemma letters_then_boundary_space lo n t :
  letters_then_boundary (S lo) n (String " " t) = None.
Proof.
  induction n as [|n IH]; [reflexivity|].
  change (letters_then_boundary (S lo) (S n) (String " " t))
    with (match letters (S (lo + n)) (String " " t) with
          | Some (tok, l, after) =>
              if word_boundary (Some l) (head_char after) then Some tok
              else letters_then_boundary (S lo) n (String " " t)
          | None => letters_then_boundary (S lo) n (String " " t)
          end).
  rewrite letters_unfold. exact IH.
Qed.

Lemma length_append s t :
  String.length (s +:+ t) = (String.length s + String.length t)%nat.
Proof. induction s as [|c s IH]; simpl; [reflexivity|]. now rewrite IH. Qed.

Lemma findall_from_append s t prev skip :
  (skip <= String.length s)%nat ->
  findall_from prev skip (s +:+ " " +:+ t)
  = (findall_from prev skip s ++ findall_from None 0 t)%list.
Proof.
  revert prev skip. induction s as [|c rest IH]; intros prev skip Hskip.
  - simpl in Hskip. assert (skip = 0%nat) as -> by lia.
    change (EmptyString +:+ " " +:+ t) with (String " " t).
    rewrite findall_from_cons, (letters_then_boundary_space 2 13). simpl app.
    assert (findall_from (Some " "%char) 0 t = findall_from None 0 t) as E
      by now apply word_side_only.
    rewrite E. now destruct (word_boundary prev (Some " "%char)).
  - change (String c rest +:+ " " +:+ t) with (String c (rest +:+ " " +:+ t)).
    rewrite !findall_from_cons.
    change (String c (rest +:+ " " +:+ t)) with (String c rest +:+ " " +:+ t).
    rewrite letters_then_boundary_append.
    simpl in Hskip. destruct skip as [|k]; [|apply IH; lia].
    destruct (word_boundary prev (Some c)); [|apply IH; lia].
    destruct (letters_then_boundary 3 13 (String c rest)) as [tok|] eqn:E;
      [|apply IH; lia].
    apply letters_then_boundary_prefix in E as (after & E).
    apply (f_equal String.length) in E. rewrite length_append in E.
    simpl in E. rewrite IH by lia. reflexivity.
Qed.

Lemma lower_append s t : lower (s +:+ t) = lower s +:+ lower t.
Proof. induction s as [|c s IH]; simpl; [reflexivity|]. now rewrite IH. Qed.

Lemma tokens_append s t : tokens (s +:+ " " +:+ t) = (tokens s ++ tokens t)%list.
Proof.
  unfold tokens, findall_words. rewrite !lower_append.
  change (lower " ") with " ".
  rewrite findall_from_append by lia. apply List.filter_app.
Qed.

(** X14 -- Feedback strings stay apart.  The words counted in the
    combined feedback are the words of the selected rows' feedback, one
    row after the other: joining with a space neither fuses words of
    neighbouring rows nor loses any, so the frequency of a word in the
    chart is the sum of its frequencies in the rows. *)
Theorem combined_feedback_tokens data selected :
  tokens (combined_feedback data selected)
  = concat (tokens <$>
              (Feedback <$>
                 List.filter (fun r => in_list (Domain r) selected) data)).
Proof.
  unfold combined_feedback.
  generalize (Feedback <$>
                List.filter (fun r => in_list (Domain r) selected) data).
  intros l. induction l as [|s rest IH]; [reflexivity|].
  destruct rest as [|s' rest].
  - simpl. now rewrite app_nil_r.
  - change (str_cat (s :: s' :: rest)) with (s +:+ " " +:+ str_cat (s' :: rest)).
    rewrite tokens_append, IH. reflexivity.
Qed.

Lemma ranking_entry words w :
  w ∈ words -> (w, occurrences w words) ∈ sorted_by_count (Counter words).
Proof.
  intros H. rewrite sorted_by_count_perm. apply Counter_entries. auto.
Qed.

Lemma ranking_sorted words :
  StronglySorted (ranks_before words) (sorted_by_count (Counter words)).
Proof.
  apply (sorted_by_count_sorted
           (fun x y => (first_occurrence (fst x) words
                        < first_occurrence (fst y) words)%nat)).
  apply (keys_sorted_entries
           (fun a b => (first_occurrence a words
                        < first_occurrence b words)%nat)).
  apply Counter_keys_sorted.
Qed.

Lemma ranks_before_ge words x y : ranks_before words x y -> (snd y <= snd x)%nat.
Proof. intros [H|[H _]]; lia. Qed.

(** X15 -- What the chart leaves out.  When a counted word is missing
    from the chart, the chart is full (15 entries) and every word on it
    is at least as frequent as the missing one. *)
Theorem word_counts_left_out text w :
  w ∈ tokens text ->
  w ∉ (word_counts text).*1 ->
  length (word_counts text) = 15%nat
  /\ Forall (fun x => (occurrences w (tokens text) <= snd x)%nat)
            (word_counts text).
Proof.
  intros Hw Hout. unfold word_counts in *. fold (tokens text) in *.
  unfold most_common in *.
  set (ranking := sorted_by_count (Counter (tokens text))) in *.
  pose proof (ranking_entry _ _ Hw) as Hin. fold ranking in Hin.
  pose proof (ranking_sorted (tokens text)) as Hsorted. fold ranking in Hsorted.
  rewrite <- (take_drop 15 ranking) in Hin, Hsorted.
  apply elem_of_app in Hin as [Hin|Hin].
  { exfalso. apply Hout, list_elem_of_fmap.
    now exists (w, occurrences w (tokens text)). }
  split.
  - apply length_take_le.
    destruct (Nat.le_gt_cases 15 (length ranking)) as [?|Hlt]; [assumption|].
    rewrite drop_ge in Hin by lia. now apply elem_of_nil in Hin.
  - apply Forall_forall. intros x Hx.
    apply (ranks_before_ge (tokens text) x (w, occurrences w (tokens text))).
    eapply StronglySorted_app_1_elem_of; eauto.
Qed.

(** X16 -- The first bar is a most frequent word.  No counted word is
    more frequent than the first entry of the chart, and the chart is
    empty only when no word is counted. *)
Theorem word_counts_head text :
  match word_counts text with
  | [] => tokens text = []
  | x :: _ =>
      Forall (fun w => (occurrences w (tokens text) <= snd x)%nat)
             (tokens text)
  end.
Proof.
  unfold word_counts. fold (tokens text). unfold most_common.
  pose proof (ranking_sorted (tokens text)) as Hsorted.
  pose proof (ranking_entry (tokens text)) as Hentry.
  destruct (sorted_by_count (Counter (tokens text))) as [|x ranking] eqn:E.
  - simpl. destruct (tokens text) as [|w ws]; [reflexivity|].
    specialize (Hentry w ltac:(left)). now apply elem_of_nil in Hentry.
  - simpl. apply Forall_forall. intros w Hw. specialize (Hentry w Hw).
    apply StronglySorted_inv in Hsorted as [_ Hx].
    apply elem_of_cons in Hentry as [<-|Hin]; [simpl; lia|].
    rewrite Forall_forall in Hx.
    exact (ranks_before_ge _ _ _ (Hx _ Hin)).
Qed.

(** X15 on the sixteen words, of which the last is left out. *)
Lemma word_counts_left_out_witness :
  length (word_counts sixteen_words) = 15%nat
  /\ Forall (fun x => (occurrences "papa" (tokens sixteen_words) <= snd x)%nat)
            (word_counts sixteen_words).
Proof.
  apply (word_counts_left_out sixteen_words "papa").
  - vm_compute. repeat first [left; reflexivity | right].
  - vm_compute. intros H.
    repeat (apply elem_of_cons in H as [H|H]; [discriminate H|]).
    now apply elem_of_nil in H.
Defined.

(** ** The filters of the dashboard *)

Lemma unique_elem {A} `{EqDecision A} (l : list A) x : x ∈ unique l <-> x ∈ l.
Proof.
  induction l as [|y l IH]; [reflexivity|]. simpl.
  rewrite !elem_of_cons, list_elem_of_filter, IH.
  destruct (decide (x = y)); intuition.
Qed.

Lemma unique_NoDup {A} `{EqDecision A} (l : list A) : NoDup (unique l).
Proof.
  induction l as [|y l IH]; simpl; constructor.
  - rewrite list_elem_of_filter. intuition.
  - now apply NoDup_filter.
Qed.

Lemma first_five_take {A} (l : list A) : first_five l = take 5 l.
Proof.
  unfold first_five. destruct (Nat.ltb_spec 5 (length l)); [reflexivity|].
  now rewrite take_ge by lia.
Qed.

Lemma isin_true {A} `{EqDecision A} (x : A) values :
  isin x values = true <-> x ∈ values.
Proof. unfold isin. apply bool_decide_eq_true. Qed.

Lemma default_keeps_first r data :
  let f := default_filters (r :: data) in
  isin (Domain r) (selected_domains f)
  && isin (State r) (selected_states f)
  && isin (College r) (selected_colleges f)
  && isin (Day r) (selected_days f) = true.
Proof.
  cbv zeta. unfold default_filters. cbn [selected_domains selected_states
    selected_colleges selected_days].
  rewrite !first_five_take, !fmap_cons. cbn [unique take].
  rewrite !andb_true_iff, !isin_true. repeat split.
  - left.
  - left.
  - left.
  - rewrite merge_sort_Permutation. left.
Qed.

(** X17 -- The default view is never empty.  For a table with at least
    one row the default selections of the four filters keep the first
    row, so the dashboard shows its charts and not the warning. *)
Theorem analytics_dashboard_default r data :
  exists shown summary,
    analytics_dashboard (r :: data) (default_filters (r :: data))
    = dashboard_charts (r :: shown) summary
    /\ filtered_data (r :: data) (default_filters (r :: data)) = r :: shown.
Proof.
  unfold analytics_dashboard, filtered_data.
  cbn [List.filter]. rewrite default_keeps_first.
  eexists _, _. split; reflexivity.
Qed.

Lemma filter_all {A} (p : A -> bool) l :
  (forall x, x ∈ l -> p x = true) -> List.filter p l = l.
Proof.
  induction l as [|x l IH]; intros H; [reflexivity|]. simpl.
  rewrite H by left. f_equal. apply IH. intros y Hy. apply H. now right.
Qed.

(** X18 -- When the defaults hide nothing.  If the table has at most
    five distinct states and at most five distinct colleges, the default
    selections keep every row in its place; the defaults can only hide
    rows of a sixth or later state or college. *)
Theorem filtered_data_default_all data :
  (length (unique (State <$> data)) <= 5)%nat ->
  (length (unique (College <$> data)) <= 5)%nat ->
  filtered_data data (default_filters data) = data.
Proof.
  intros Hs Hc. unfold filtered_data. apply filter_all. intros r Hr.
  unfold default_filters. cbn [selected_domains selected_states
    selected_colleges selected_days].
  rewrite !first_five_take, !take_ge by lia.
  rewrite !andb_true_iff, !isin_true, merge_sort_Permutation, !unique_elem.
  repeat split; apply list_elem_of_fmap; eauto.
Qed.

Lemma filtered_data_elem data f r :
  r ∈ filtered_data data f
  <-> r ∈ data
      /\ Domain r ∈ selected_domains f /\ State r ∈ selected_states f
      /\ College r ∈ selected_colleges f /\ Day r ∈ selected_days f.
Proof.
  unfold filtered_data.
  rewrite !list_elem_of_In, filter_In, !andb_true_iff, !isin_true.
  rewrite !list_elem_of_In. tauto.
Qed.

(** X19 -- The warning means no match.  The dashboard shows the warning
    exactly when no row of the table satisfies the four selections at
    once; otherwise the rows charted are the matching rows, and the
    summary counts them. *)
Theorem analytics_dashboard_outcome data f :
  match analytics_dashboard data f with
  | dashboard_warning _ =>
      forall r, r ∈ data ->
        ~ (Domain r ∈ selected_domains f /\ State r ∈ selected_states f
           /\ College r ∈ selected_colleges f /\ Day r ∈ selected_days f)
  | dashboard_charts shown summary =>
      shown <> []
      /\ shown `sublist_of` data
      /\ (forall r, r ∈ shown
            <-> r ∈ data
                /\ Domain r ∈ selected_domains f /\ State r ∈ selected_states f
                /\ College r ∈ selected_colleges f /\ Day r ∈ selected_days f)
      /\ fst (fst (fst (fst summary))) = Z.of_nat (length shown)
  end.
Proof.
  unfold analytics_dashboard.
  pose proof (filtered_data_elem data f) as Helem.
  assert (filtered_data data f `sublist_of` data) as Hsub.
  { unfold filtered_data. clear. induction data as [|r data IH]; simpl.
    - constructor.
    - destruct (_ && _); [now constructor|now apply sublist_cons]. }
  destruct (filtered_data data f) as [|r0 rows].
  - intros r Hr H. apply (elem_of_nil r), Helem. auto.
  - split; [discriminate|]. split; [exact Hsub|]. split; [exact Helem|].
    reflexivity.
Qed.

(** X18 on a table of two rows. *)
Lemma filtered_data_default_all_witness :
  filtered_data
    [Row "P001" "Mary Smith" 20 "Female" "IIT Delhi" "Goa" "IoT" 1 0 5 70 "ok";
     Row "P002" "John Brown" 21 "Male" "IIT Bombay" "Delhi" "AI/ML" 2 0 6 80 "ok"]
    (default_filters
       [Row "P001" "Mary Smith" 20 "Female" "IIT Delhi" "Goa" "IoT" 1 0 5 70 "ok";
        Row "P002" "John Brown" 21 "Male" "IIT Bombay" "Delhi" "AI/ML" 2 0 6 80 "ok"])
  = [Row "P001" "Mary Smith" 20 "Female" "IIT Delhi" "Goa" "IoT" 1 0 5 70 "ok";
     Row "P002" "John Brown" 21 "Male" "IIT Bombay" "Delhi" "AI/ML" 2 0 6 80 "ok"].
Proof.
  apply (filtered_data_default_all
           [Row "P001" "Mary Smith" 20 "Female" "IIT Delhi" "Goa" "IoT" 1 0 5
                70 "ok";
            Row "P002" "John Brown" 21 "Male" "IIT Bombay" "Delhi" "AI/ML" 2 0
                6 80 "ok"]);
    vm_compute; lia.
Defined.

(** ** The event gallery *)

Lemma domain_images_three domain urls :
  domain_images !! domain = Some urls -> length urls = 3%nat.
Proof.
  intros H. apply elem_of_list_to_map_2 in H.
  repeat (apply elem_of_cons in H as [H|H]; [now injection H as _ ->|]).
  now apply elem_of_nil in H.
Qed.

Lemma domain_images_offered domain :
  domain ∈ default_domains -> is_Some (domain_images !! domain).
Proof.
  intros H. unfold default_domains in H.
  repeat (apply elem_of_cons in H as [->|H];
          [eexists; vm_compute; reflexivity|]).
  now apply elem_of_nil in H.
Qed.

Lemma day_idx_below_three day :
  day ∈ ["Day 1"; "Day 2"; "Day 3"] ->
  exists idx, day_idx !! day = Some idx /\ (idx < 3)%nat.
Proof.
  intros H.
  repeat (apply elem_of_cons in H as [->|H];
          [eexists; split; [vm_compute; reflexivity|lia]|]).
  now apply elem_of_nil in H.
Qed.

Lemma gallery_images_spec day i domains :
  day ∈ ["Day 1"; "Day 2"; "Day 3"] ->
  exists images,
    gallery_images day i domains = inr images
    /\ Forall (fun im =>
                 (image_column im < 3)%nat
                 /\ exists domain urls,
                      domain ∈ domains
                      /\ domain_images !! domain = Some urls
                      /\ image_url im ∈ urls
                      /\ image_caption im = domain +:+ " - " +:+ day) images
    /\ (Forall (fun d => d ∈ default_domains) domains ->
        image_caption <$> images
        = (fun d => d +:+ " - " +:+ day) <$> domains).
Proof.
  intros Hday. destruct (day_idx_below_three day Hday) as (idx & Eidx & Hidx).
  revert i. induction domains as [|domain rest IH]; intros i.
  - exists []. repeat split; auto.
  - destruct (IH (S i)) as (images & E & Hall & Hcap).
    assert (Forall (fun im =>
              (image_column im < 3)%nat
              /\ exists d urls,
                   d ∈ domain :: rest
                   /\ domain_images !! d = Some urls
                   /\ image_url im ∈ urls
                   /\ image_caption im = d +:+ " - " +:+ day) images) as Hall'.
    { eapply Forall_impl; [exact Hall|].
      intros im (Hcol & d & urls & Hd & H). split; [exact Hcol|].
      exists d, urls. split; [now right|exact H]. }
    cbn [gallery_images].
    destruct (domain_images !! domain) as [urls|] eqn:Eurls.
    + rewrite Eidx.
      destruct (urls !! idx) as [url|] eqn:Eurl.
      * rewrite E. eexists. split; [reflexivity|]. split.
        -- constructor; [|exact Hall'].
           cbn [image_column image_url image_caption]. split.
           ++ apply Nat.mod_upper_bound. lia.
           ++ exists domain, urls. repeat split; auto; [left|].
              eapply list_elem_of_lookup_2, Eurl.
        -- intros Hoff. apply Forall_cons in Hoff as [_ Hoff].
           rewrite !fmap_cons. cbn [image_caption]. now rewrite Hcap.
      * exfalso. apply lookup_ge_None in Eurl.
        apply domain_images_three in Eurls. lia.
    + exists images. split; [exact E|]. split; [exact Hall'|].
      intros Hoff. apply Forall_cons in Hoff as [Hd _].
      apply domain_images_offered in Hd as [? Hd]. congruence.
Qed.

(** X20 -- The gallery never fails a lookup.  For each of the three days
    of the radio button and any selection of domains, no subscript of
    the image table fails.  Every image shown goes to one of the three
    columns and is one of the three images of a selected domain,
    captioned with that domain and the day; for a selection among the
    five domains offered there is exactly one image per selected domain,
    in the order of the selection.  An empty selection shows the warning
    instead. *)
Theorem show_image_gallery_outcome day domains :
  day ∈ ["Day 1"; "Day 2"; "Day 3"] ->
  match domains with
  | [] =>
      show_image_gallery day domains
      = inr (gallery_warning
               "Please select at least one domain to display images.")
  | _ =>
      exists images,
        show_image_gallery day domains
        = inr (gallery_shown ("Images from " +:+ day) images)
        /\ Forall (fun im =>
                     (image_column im < 3)%nat
                     /\ exists domain urls,
                          domain ∈ domains
                          /\ domain_images !! domain = Some urls
                          /\ image_url im ∈ urls
                          /\ image_caption im = domain +:+ " - " +:+ day)
                  images
        /\ (Forall (fun d => d ∈ default_domains) domains ->
            image_caption <$> images
            = (fun d => d +:+ " - " +:+ day) <$> domains)
  end.
Proof.
  intros Hday. destruct domains as [|domain rest]; [reflexivity|].
  destruct (gallery_images_spec day 0 (domain :: rest) Hday)
    as (images & E & H).
  exists images. unfold show_image_gallery. rewrite E. auto.
Qed.

(** X20 on the second day with two domains selected. *)
Lemma show_image_gallery_outcome_witness :
  exists images,
    show_image_gallery "Day 2" ["IoT"; "AI/ML"]
    = inr (gallery_shown "Images from Day 2" images)
    /\ Forall (fun im =>
                 (image_column im < 3)%nat
                 /\ exists domain urls,
                      domain ∈ ["IoT"; "AI/ML"]
                      /\ domain_images !! domain = Some urls
                      /\ image_url im ∈ urls
                      /\ image_caption im = domain +:+ " - " +:+ "Day 2")
              images
    /\ (Forall (fun d => d ∈ default_domains) ["IoT"; "AI/ML"] ->
        image_caption <$> images
        = (fun d => d +:+ " - " +:+ "Day 2") <$> ["IoT"; "AI/ML"]).
Proof.
  apply (show_image_gallery_outcome "Day 2" ["IoT"; "AI/ML"]).
  right. left.
Defined.

(** ** The sepia filter over an image *)

Lemma sepia_pixel_rgb p :
  rgb p -> exists new, sepia_pixel p = Ok new /\ rgb new.
Proof.
  destruct p as [[r g] b]. intros (Hr & Hg & Hb). simpl in Hr, Hg, Hb.
  destruct (sepia_channel _ _ _ _ _ _ r g b red_near_formula)
    as (tr & Er & Htr & _); try lia.
  destruct (sepia_channel _ _ _ _ _ _ r g b green_near_formula)
    as (tg & Eg & Htg & _); try lia.
  destruct (sepia_channel _ _ _ _ _ _ r g b blue_near_formula)
    as (tb & Eb & Htb & _); try lia.
  exists (clamp255 tr, clamp255 tg, clamp255 tb). unfold sepia_pixel.
  rewrite Er, Eg, Eb. split; [reflexivity|].
  unfold rgb. simpl. rewrite !clamp255_min. lia.
Qed.

Lemma sepia_at_nil im : sepia_at [] im im.
Proof.
  repeat split; auto. intros xy H. now apply elem_of_nil in H.
Qed.

Lemma sepia_at_app cells1 cells2 im im1 im2 :
  (forall xy, xy ∈ cells1 -> xy ∉ cells2) ->
  sepia_at cells1 im im1 -> sepia_at cells2 im1 im2 ->
  sepia_at (cells1 ++ cells2) im im2.
Proof.
  intros Hdisj (Hw1 & Hh1 & Hin1 & Hout1) (Hw2 & Hh2 & Hin2 & Hout2).
  split; [congruence|]. split; [congruence|]. split.
  - intros xy Hxy. apply elem_of_app in Hxy as [Hxy|Hxy].
    + destruct (Hin1 xy Hxy) as (p & new & Hp & Hs & Hrgb & Hnew).
      exists p, new. split; [exact Hp|]. split; [exact Hs|].
      split; [exact Hrgb|].
      rewrite Hout2 by now apply Hdisj. exact Hnew.
    + destruct (Hin2 xy Hxy) as (p & new & Hp & Hs & Hrgb & Hnew).
      exists p, new. split; [|split; [exact Hs|split; [exact Hrgb|exact Hnew]]].
      rewrite <- Hout1; [exact Hp|]. intros H1. now apply (Hdisj xy H1).
  - intros xy Hxy. apply not_elem_of_app in Hxy as [H1 H2].
    now rewrite Hout2, Hout1.
Qed.

Lemma in_image_same_size im im' xy :
  image_width im' = image_width im -> image_height im' = image_height im ->
  in_image im' xy = in_image im xy.
Proof. intros Hw Hh. unfold in_image. now rewrite Hw, Hh. Qed.

Lemma sepia_step_spec px py im :
  in_image im (px, py) = true ->
  (exists p, image_pixels im !! (px, py) = Some p /\ rgb p) ->
  exists im', sepia_step px py im = Ok im' /\ sepia_at [(px, py)] im im'.
Proof.
  intros Hin (p & Hp & Hrgb).
  destruct (sepia_pixel_rgb p Hrgb) as (new & Hs & Hnew).
  unfold sepia_step, getpixel, putpixel. rewrite Hin, Hp. simpl result_bind.
  rewrite Hs. simpl result_bind. eexists. split; [reflexivity|].
  split; [reflexivity|]. split; [reflexivity|]. split.
  - intros xy Hxy. apply list_elem_of_singleton in Hxy as ->.
    exists p, new. split; [exact Hp|]. split; [exact Hs|].
    split; [exact Hnew|]. simpl. apply lookup_insert_eq.
  - intros xy Hxy. simpl. apply lookup_insert_ne.
    intros <-. apply Hxy. left.
Qed.

(** The cells of a row that a pass over [xs] does not touch keep what
    the pass needs: their pixel and the size of the image. *)
Lemma row_spec y xs im :
  NoDup xs ->
  (forall x, x ∈ xs ->
     in_image im (x, y) = true
     /\ exists p, image_pixels im !! (x, y) = Some p /\ rgb p) ->
  exists im',
    for_state xs (fun px im => sepia_step px y im) im = Ok im'
    /\ sepia_at ((fun x => (x, y)) <$> xs) im im'.
Proof.
  intros Hnd. revert im. induction Hnd as [|x xs Hx Hnd IH]; intros im Hpre.
  - exists im. split; [reflexivity|apply sepia_at_nil].
  - destruct (Hpre x ltac:(left)) as [Hin Hp].
    destruct (sepia_step_spec x y im Hin Hp) as (im1 & E1 & H1).
    destruct (IH im1) as (im2 & E2 & H2).
    { intros x' Hx'. destruct (Hpre x' ltac:(now right)) as [Hin' Hp'].
      destruct H1 as (Hw & Hh & _ & Hout). split.
      - now rewrite (in_image_same_size im im1).
      - rewrite Hout; [exact Hp'|].
        intros H. apply list_elem_of_singleton in H. congruence. }
    exists im2. simpl for_state. rewrite E1. simpl result_bind.
    split; [exact E2|].
    rewrite fmap_cons.
    apply (sepia_at_app [(x, y)] _ im im1 im2); [|exact H1|exact H2].
    intros xy Hxy Hin'. apply list_elem_of_singleton in Hxy as ->.
    apply list_elem_of_fmap in Hin' as (x' & E & Hx').
    injection E as <-. contradiction.
Qed.

Lemma rows_spec xs ys im :
  NoDup xs -> NoDup ys ->
  (forall x y, x ∈ xs -> y ∈ ys ->
     in_image im (x, y) = true
     /\ exists p, image_pixels im !! (x, y) = Some p /\ rgb p) ->
  exists im',
    for_state ys
      (fun py im => for_state xs (fun px im => sepia_step px py im) im) im
    = Ok im'
    /\ sepia_at (ys ≫= fun y => (fun x => (x, y)) <$> xs) im im'.
Proof.
  intros Hxs Hys. revert im. induction Hys as [|y ys Hy Hys IH]; intros im Hpre.
  - exists im. split; [reflexivity|apply sepia_at_nil].
  - destruct (row_spec y xs im Hxs) as (im1 & E1 & H1).
    { intros x Hx. apply Hpre; [exact Hx|left]. }
    destruct (IH im1) as (im2 & E2 & H2).
    { intros x y' Hx Hy'. destruct (Hpre x y' Hx ltac:(now right)) as [Hin Hp].
      destruct H1 as (Hw & Hh & _ & Hout). split.
      - now rewrite (in_image_same_size im im1).
      - rewrite Hout; [exact Hp|].
        intros H. apply list_elem_of_fmap in H as (x' & E & _).
        injection E as _ <-. contradiction. }
    exists im2. simpl for_state. rewrite E1. simpl result_bind.
    split; [exact E2|]. rewrite bind_cons.
    apply (sepia_at_app _ _ im im1 im2); [|exact H1|exact H2].
    intros xy Hxy Hin'.
    apply list_elem_of_fmap in Hxy as (x & -> & _).
    apply list_elem_of_bind in Hin' as (y' & Hin' & Hy').
    apply list_elem_of_fmap in Hin' as (x' & E & _).
    injection E as _ <-. contradiction.
Qed.

(** X21 -- Sepia in place.  On an image whose every pixel is an RGB
    triple of channels in 0..255, the two loops finish without an
    error.  They leave the size of the image as it was and put at every
    coordinate the sepia value of the pixel that was there before the
    filter started, with channels in 0..255 again: writing into the
    image being read never feeds an already converted pixel back into
    the conversion. *)
Theorem sepia_filter_spec im :
  well_formed im ->
  exists im',
    sepia_filter im = Ok im'
    /\ image_width im' = image_width im
    /\ image_height im' = image_height im
    /\ well_formed im'
    /\ (forall xy, in_image im xy = true ->
          exists p new,
            image_pixels im !! xy = Some p
            /\ sepia_pixel p = Ok new
            /\ image_pixels im' !! xy = Some new)
    /\ (forall xy, in_image im xy = false ->
          image_pixels im' !! xy = image_pixels im !! xy).
Proof.
  intros Hwf.
  assert (forall xy,
             xy ∈ (seqZ 0 (image_height im) ≫=
                     fun y => (fun x => (x, y)) <$> seqZ 0 (image_width im))
             <-> in_image im xy = true) as Hcells.
  { intros [x y]. rewrite list_elem_of_bind. unfold in_image. simpl.
    rewrite !andb_true_iff, !Z.leb_le, !Z.ltb_lt. split.
    - intros (y' & Hin & Hy'). apply list_elem_of_fmap in Hin as (x' & E & Hx').
      injection E as -> ->. apply elem_of_seqZ in Hx', Hy'. lia.
    - intros H. exists y. split.
      + apply list_elem_of_fmap. exists x. split; [reflexivity|].
        apply elem_of_seqZ. lia.
      + apply elem_of_seqZ. lia. }
  destruct (rows_spec (seqZ 0 (image_width im)) (seqZ 0 (image_height im)) im)
    as (im' & E & Hw & Hh & Hin & Hout).
  { apply NoDup_seqZ. }
  { apply NoDup_seqZ. }
  { intros x y Hx Hy. apply elem_of_seqZ in Hx, Hy.
    assert (in_image im (x, y) = true) as Hxy.
    { unfold in_image. simpl.
      rewrite !andb_true_iff, !Z.leb_le, !Z.ltb_lt. lia. }
    split; [exact Hxy|now apply Hwf]. }
  exists im'. split; [exact E|]. split; [exact Hw|]. split; [exact Hh|].
  split; [|split].
  - intros xy Hxy. rewrite (in_image_same_size im im') in Hxy by assumption.
    apply Hcells, Hin in Hxy as (p & new & _ & _ & Hrgb & Hnew). eauto.
  - intros xy Hxy. apply Hcells, Hin in Hxy as (p & new & Hp & Hs & _ & Hnew).
    eauto.
  - intros xy Hxy. apply Hout. rewrite Hcells. congruence.
Qed.

(** ** The text overlay *)

(** X22 -- Placement of the overlay.  The text is centred horizontally
    to the pixel: the margin on its right exceeds the margin on its left
    by 0 or 1.  "Top" puts it 20 pixels below the upper edge, "Center"
    centres it vertically in the same way, and any other choice leaves
    exactly 20 pixels below it.  The text starts inside the image
    exactly when it is not wider than the image, and for the sizes the
    slider offers, 10 to 50, the shadow is shifted by 1 to 3 pixels. *)
Theorem text_origin_spec text_position width height text_width text_height
    text_size :
  let (x, y) := text_origin text_position width height text_width text_height in
  0 <= (width - text_width - x) - x <= 1
  /\ (0 <= x <-> text_width <= width)
  /\ (text_position = "Top" -> y = 20)
  /\ (text_position = "Center" ->
      0 <= (height - text_height - y) - y <= 1)
  /\ (text_position <> "Top" -> text_position <> "Center" ->
      y + text_height = height - 20)
  /\ (10 <= text_size <= 50 -> 1 <= shadow_offset text_size <= 3).
Proof.
  unfold text_origin, shadow_offset.
  pose proof (Z.div_mod (width - text_width) 2 ltac:(lia)) as Hx.
  pose proof (Z.mod_pos_bound (width - text_width) 2 ltac:(lia)) as Hx'.
  pose proof (Z.div_mod (height - text_height) 2 ltac:(lia)) as Hy.
  pose proof (Z.mod_pos_bound (height - text_height) 2 ltac:(lia)) as Hy'.
  pose proof (Z.div_mod text_size 15 ltac:(lia)) as Hs.
  pose proof (Z.mod_pos_bound text_size 15 ltac:(lia)) as Hs'.
  destruct (String.eqb_spec text_position "Top") as [->|Htop];
    [|destruct (String.eqb_spec text_position "Center") as [->|Hcenter]];
    repeat split; intros; try congruence; try discriminate; lia.
Qed.

(** A two-pixel image for X21: black beside white. *)
Lemma sepia_filter_spec_witness :
  let im := Image 2 1 (<[(0, 0) := (0, 0, 0)]> (<[(1, 0) := (255, 255, 255)]> ∅)) in
  well_formed im
  /\ exists im',
       sepia_filter im = Ok im'
       /\ image_width im' = image_width im
       /\ image_height im' = image_height im
       /\ well_formed im'
       /\ (forall xy, in_image im xy = true ->
             exists p new,
               image_pixels im !! xy = Some p
               /\ sepia_pixel p = Ok new
               /\ image_pixels im' !! xy = Some new)
       /\ (forall xy, in_image im xy = false ->
             image_pixels im' !! xy = image_pixels im !! xy).
Proof.
  intros im.
  assert (well_formed im) as Hwf.
  { intros [x y] H. unfold in_image in H. simpl in H.
    rewrite !andb_true_iff, !Z.leb_le, !Z.ltb_lt in H.
    assert (y = 0) as -> by lia.
    assert (x = 0 \/ x = 1) as [-> | ->] by lia;
      eexists; (split; [vm_compute; reflexivity|]); unfold rgb; simpl; lia. }
  split; [exact Hwf|]. exact (sepia_filter_spec im Hwf).
Defined.
